(** * magpylib: the Collection class

  A shallow embedding of [magpylib/_lib/classes/collection.py]: the member
  registry ([__init__], [addSources], [removeSource]), the field
  superposition ([getB], [getBsweep]) and the transform broadcast
  ([move], [rotate]), with the properties the specification states about
  them. *)

From Stdlib Require Import ZArith List Bool Lia Reals Lra RNsatz Permutation.
From Stdlib Require Floats.
Import ListNotations.

Set Warnings "-register-all".

(** * Python outcomes: exceptions, and methods that mutate [self] *)

Module Py.

Inductive exn : Type :=
| AssertionError
| IndexError
| ValueError
| AttributeError
| OverflowError
| DegenerateAxisError
| MemberError (tag : nat).   (* whatever a member's own method raises *)

Inductive result (A : Type) : Type :=
| Ok (a : A)
| Raise (e : exn).
Arguments Ok {A} a.
Arguments Raise {A} e.

Definition rbind {A B} (r : result A) (k : A -> result B) : result B :=
  match r with
  | Ok a => k a
  | Raise e => Raise e
  end.

(** [[f(x) for x in xs]]: left to right, the first exception ends it. *)
Fixpoint mapM {A B} (f : A -> result B) (xs : list A) : result (list B) :=
  match xs with
  | [] => Ok []
  | x :: rest =>
      rbind (f x) (fun y => rbind (mapM f rest) (fun ys => Ok (y :: ys)))
  end.

(** A method body over a mutable state [S]: the state it leaves behind
    (also when it raises: in-place mutations done before the exception
    stay) and its return value or exception. *)
Definition M (S A : Type) : Type := S -> S * result A.

Definition ret {S A} (a : A) : M S A := fun s => (s, Ok a).
Definition raise {S A} (e : exn) : M S A := fun s => (s, Raise e).
Definition bind {S A B} (m : M S A) (k : A -> M S B) : M S B :=
  fun s =>
    match m s with
    | (s', Ok a) => k a s'
    | (s', Raise e) => (s', Raise e)
    end.
Definition assert {S} (b : bool) : M S unit :=
  if b then ret tt else raise AssertionError.

(** [for x in xs: body(x)] *)
Fixpoint for_each {S A} (body : A -> M S unit) (xs : list A) : M S unit :=
  match xs with
  | [] => ret tt
  | x :: rest => bind (body x) (fun _ => for_each body rest)
  end.

End Py.

Import Py.

Declare Scope py_scope.
Delimit Scope py_scope with py.
Notation "x <- c ;; k" := (bind c (fun x => k))
(at level 61, c at next level, right associativity) : py_scope.
Notation "c ;;; k" := (bind c (fun _ => k))
(at level 61, right associativity) : py_scope.

(** * The member registry *)

Module Registry.

(** The Python objects that reach the registry's methods. *)
Inductive pyobj : Type :=
| Source (id : nat)                   (* a Box, Cylinder, ..., Dipole object; [id] is its identity *)
| Collection (sources : list pyobj)   (* a Collection object with its [sources] list *)
| Sequence (items : list pyobj)       (* a list or a tuple *)
| PyInt (n : Z)
| PyBool (b : bool)
| PyNone.

(** [v is True] *)
Definition is_True (v : pyobj) : bool :=
  match v with
  | PyBool true => true
  | _ => false
  end.

(** Modelled from the spec: [isSource] of magpylib._lib.utility, which is
    not among the sources: a Source is one of the field-source variants
    (BoxMagnet, ..., Dipole), nothing else. *)
Definition isSource (o : pyobj) : bool :=
  match o with
  | Source _ => true
  | _ => false
  end.

(** [==] between two objects that passed [isSource]: the source classes do
    not override equality, so it is identity. *)
Definition same_source (a b : pyobj) : bool :=
  match a, b with
  | Source i, Source j => Nat.eqb i j
  | _, _ => false
  end.

(** [x in l] *)
Definition py_in (x : pyobj) (l : list pyobj) : bool :=
  existsb (fun y => same_source y x) l.

(** Modelled from the spec: [addUniqueSource] of magpylib._lib.utility,
    which is not among the sources: an already-present reference is
    dropped (with a warning, not an exception), a new one is appended. *)
Definition addUniqueSource (source : pyobj) : M (list pyobj) unit :=
  fun sourceList =>
    if py_in source sourceList then (sourceList, Ok tt)
    else (sourceList ++ [source], Ok tt).

(** Modelled from the spec: [addListToCollection] of
    magpylib._lib.utility, which is not among the sources: every element
    must be a Source (else the call fails before anything is added), and
    the duplicate policy is applied as each element is considered. *)
Definition addListToCollection (inputList : list pyobj) (dupWarning : pyobj)
  : M (list pyobj) unit :=
  (assert (forallb isSource inputList) ;;;
   if is_True dupWarning then for_each addUniqueSource inputList
   else fun sourceList => (sourceList ++ inputList, Ok tt))%py.

(** The body of the loop shared by [__init__] and [addSources]. *)
Definition add_argument (dupWarning : pyobj) (s : pyobj) : M (list pyobj) unit :=
  match s with
  | Collection sources => addListToCollection sources dupWarning
  | Sequence items => addListToCollection items dupWarning
  | _ =>
      (assert (isSource s) ;;;
       if is_True dupWarning then addUniqueSource s
       else fun self_sources => (self_sources ++ [s], Ok tt))%py
  end.

Definition addSources (sources : list pyobj) (dupWarning : pyobj)
  : M (list pyobj) unit :=
  for_each (add_argument dupWarning) sources.

(** The constructor [Collection(s1, ..., sn, dupWarning=...)]: it sets
    [self.sources = []] and runs the same loop. *)
Definition __init__ (sources : list pyobj) (dupWarning : pyobj)
  : list pyobj * result unit :=
  for_each (add_argument dupWarning) sources [].

(** An index that fits the C type [Py_ssize_t] of a 64-bit CPython. *)
Definition fits_ssize_t (i : Z) : bool :=
  ((- 2 ^ 63 <=? i) && (i <? 2 ^ 63))%Z.

(** [l.pop(i)]: an int that does not fit [Py_ssize_t] raises OverflowError
    before the list is looked at; a negative index counts from the end; an
    index outside the list raises IndexError. *)
Definition list_pop (l : list pyobj) (i : Z) : result (pyobj * list pyobj) :=
  if fits_ssize_t i then
    let n := Z.of_nat (length l) in
    let j := if (i <? 0)%Z then (i + n)%Z else i in
    if ((j <? 0) || (n <=? j))%Z then Raise IndexError
    else
      match nth_error l (Z.to_nat j) with
      | Some x => Ok (x, firstn (Z.to_nat j) l ++ skipn (S (Z.to_nat j)) l)
      | None => Raise IndexError
      end
  else Raise OverflowError.

(** [l.remove(x)]: the first entry equal to [x] goes. *)
Fixpoint list_remove (x : pyobj) (l : list pyobj) : option (list pyobj) :=
  match l with
  | [] => None
  | y :: rest =>
      if same_source y x then Some rest
      else option_map (cons y) (list_remove x rest)
  end.

Definition removeSource (source_ref : pyobj) : M (list pyobj) pyobj :=
  match source_ref with
  | PyInt i =>
      fun self_sources =>
        match list_pop self_sources i with
        | Ok (x, rest) => (rest, Ok x)
        | Raise IndexError => (self_sources, Raise IndexError)
        | Raise e => (self_sources, Raise e)
        end
  | _ =>
      (assert (isSource source_ref) ;;;
       fun self_sources =>
         match list_remove source_ref self_sources with
         | Some rest => (rest, Ok source_ref)
         | None => (self_sources, Raise ValueError)
         end)%py
  end.

(** [removeSource()]: the default argument is [-1]. *)
Definition removeSource_default : M (list pyobj) pyobj :=
  removeSource (PyInt (-1)).

(** How often the reference [s] occurs in the member list [l]. *)
Definition occurrences (s : pyobj) (l : list pyobj) : nat :=
  length (filter (fun y => same_source y s) l).

(** The invariant of a checked member list: only sources, none twice. *)
Definition unique_sources (l : list pyobj) : Prop :=
  Forall (fun o => isSource o = true) l /\ NoDup l.

(** The member lists of the collections built and extended with the
    duplicate check on ([dupWarning=True], the default). *)
Inductive built_checked : list pyobj -> Prop :=
| built_init (sources : list pyobj) :
    built_checked (fst (__init__ sources (PyBool true)))
| built_add (l sources : list pyobj) :
    built_checked l ->
    built_checked (fst (addSources sources (PyBool true) l))
| built_remove (l : list pyobj) (source_ref : pyobj) :
    built_checked l ->
    built_checked (fst (removeSource source_ref l)).

(** The program state around a collection: the Source objects live in a
    store of their own, the collection holds references into it. *)
Section Store.
Variable SourceState : Type.

Record World : Type := mkWorld {
  store : nat -> SourceState;
  self_sources : list pyobj
}.

(** A registry method run in the whole program state. *)
Definition on_sources {A} (m : M (list pyobj) A) : M World A :=
  fun w =>
    let (l, r) := m (self_sources w) in
    (mkWorld (store w) l, r).
End Store.

End Registry.


(** * Field superposition *)

Module Field.

(** A 3-vector [b]: [b[0]], [b[1]], [b[2]]. *)
Record vec3 (A : Type) : Type := mkVec3 { vx : A; vy : A; vz : A }.
Arguments mkVec3 {A} vx vy vz.
Arguments vx {A} v.
Arguments vy {A} v.
Arguments vz {A} v.

Section Superposition.

(** float64 values with their addition; [of_int] is the conversion an
    addition of an int and a float applies to the int. No law of
    arithmetic is assumed of them. *)
Variable F : Type.
Variable fadd : F -> F -> F.
Variable of_int : Z -> F.

(** A Python number: an int or a float. *)
Inductive num : Type :=
| NInt (n : Z)
| NFloat (x : F).

Definition to_float (a : num) : F :=
  match a with
  | NInt n => of_int n
  | NFloat x => x
  end.

(** [a + b] on numbers *)
Definition num_add (a b : num) : num :=
  match a, b with
  | NInt m, NInt n => NInt (m + n)
  | _, _ => NFloat (fadd (to_float a) (to_float b))
  end.

(** What [getB] can return: a number, or a numpy array of three floats. *)
Inductive value : Type :=
| Num (a : num)
| Arr (b : vec3 F).

(** [u + v]: numpy broadcasts a number over an array. *)
Definition value_add (u v : value) : value :=
  match u, v with
  | Num a, Num b => Num (num_add a b)
  | Num a, Arr b =>
      Arr (mkVec3 (fadd (to_float a) (vx b)) (fadd (to_float a) (vy b))
             (fadd (to_float a) (vz b)))
  | Arr b, Num a =>
      Arr (mkVec3 (fadd (vx b) (to_float a)) (fadd (vy b) (to_float a))
             (fadd (vz b) (to_float a)))
  | Arr b, Arr c =>
      Arr (mkVec3 (fadd (vx b) (vx c)) (fadd (vy b) (vy c)) (fadd (vz b) (vz c)))
  end.

(** The built-in [sum(xs)]: from the int [0], left to right. *)
Definition py_sum (xs : list value) : value :=
  fold_left value_add xs (Num (NInt 0)).

(** The members and their field capability, which the collection only
    calls: [s.getB(pos)] and [s.getBsweep(pos, multiprocessing, processes)]
    return or raise. *)
Variable Source : Type.
Variable Pos : Type.
Variable isPosVector : Pos -> bool.
Variable member_getB : Source -> Pos -> result (vec3 F).
Variable member_getBsweep :
  Source -> list Pos -> bool -> Z -> result (list (vec3 F)).

Definition getB (self_sources : list Source) (pos : Pos) : result value :=
  rbind (mapM (fun s => member_getB s pos) self_sources)
    (fun bs => Ok (py_sum (map Arr bs))).

(** [px += calcFields[src][p][0]] and so on, for [src] over the range. *)
Fixpoint sum_over_sources (calcFields : list (list (vec3 F))) (p : nat)
  (srcs : list nat) (acc : vec3 num) : result (vec3 num) :=
  match srcs with
  | [] => Ok acc
  | src :: rest =>
      match nth_error calcFields src with
      | None => Raise IndexError
      | Some rows =>
          match nth_error rows p with
          | None => Raise IndexError
          | Some b =>
              sum_over_sources calcFields p rest
                (mkVec3 (num_add (vx acc) (NFloat (vx b)))
                   (num_add (vy acc) (NFloat (vy b)))
                   (num_add (vz acc) (NFloat (vz b))))
          end
      end
  end.

Definition getBsweep (self_sources : list Source) (pos : list Pos)
  (multiprocessing : bool) (processes : Z) : result (list (vec3 num)) :=
  if forallb isPosVector pos then
    rbind
      (mapM (fun s => member_getBsweep s pos multiprocessing processes)
         self_sources)
      (fun calcFields =>
         mapM
           (fun p =>
              sum_over_sources calcFields p (seq 0 (length self_sources))
                (mkVec3 (NInt 0) (NInt 0) (NInt 0)))
           (seq 0 (length pos)))
  else Raise AssertionError.

(** The component-wise sum of two vectors. *)
Definition add3 (a b : vec3 F) : vec3 F :=
  mkVec3 (fadd (vx a) (vx b)) (fadd (vy a) (vy b)) (fadd (vz a) (vz b)).

(** The int [0] added to a vector, component by component. *)
Definition zero_plus (b : vec3 F) : vec3 F :=
  mkVec3 (fadd (of_int 0) (vx b)) (fadd (of_int 0) (vy b))
    (fadd (of_int 0) (vz b)).

(** The sum of the vectors [first :: others], in order, the way both methods
    add: the first is added to the int [0], the others to the sum so far. *)
Definition vector_sum (first : vec3 F) (others : list (vec3 F)) : vec3 F :=
  fold_left add3 others (zero_plus first).

(** A list [[px, py, pz]] of floats holds the components of the array [b]. *)
Definition floats_of (b : vec3 F) : vec3 num :=
  mkVec3 (NFloat (vx b)) (NFloat (vy b)) (NFloat (vz b)).

(** The row [[0, 0, 0]] of three ints. *)
Definition zeros : vec3 num := mkVec3 (NInt 0) (NInt 0) (NInt 0).

(** [row == v] holds in every component: a list of three numbers against
    what [getB] returned. A list is never equal to a number. *)
Definition agree (row : vec3 num) (v : value) : Prop :=
  match v with
  | Arr b =>
      to_float (vx row) = vx b /\ to_float (vy row) = vy b
      /\ to_float (vz row) = vz b
  | Num _ => False
  end.

(** One step of the inner loop of [getBsweep]. *)
Definition acc_plus (acc : vec3 num) (b : vec3 F) : vec3 num :=
  mkVec3 (num_add (vx acc) (NFloat (vx b))) (num_add (vy acc) (NFloat (vy b)))
    (num_add (vz acc) (NFloat (vz b))).

(** The contributions of all members at point number [p]. *)
Definition column (calcFields : list (list (vec3 F))) (p : nat) : list (vec3 F) :=
  flat_map
    (fun rows => match nth_error rows p with Some b => [b] | None => [] end)
    calcFields.

End Superposition.

(** binary64 floats: the conversion of a Python int to a float (exact for
    the ints the methods convert, which is the int 0 alone), to run the two
    methods on the numbers they are run on. *)
Definition float_of_int (n : Z) : PrimFloat.float :=
  match n with
  | Z0 => PrimFloat.zero
  | Zpos _ => PrimFloat.of_uint63 (Uint63.of_Z n)
  | Zneg p => PrimFloat.opp (PrimFloat.of_uint63 (Uint63.of_Z (Zpos p)))
  end.

(** A member whose field is the same vector [b] at every point. *)
Definition constant_getB (b : vec3 PrimFloat.float) (s : unit) (pos : unit)
  : result (vec3 PrimFloat.float) :=
  Ok b.

(** A concrete member for the examples: integer-valued fields, and a source
    whose evaluation raises. *)
Definition toy_field (s : nat) (pos : Z) : vec3 Z :=
  mkVec3 (Z.of_nat s) pos (Z.of_nat s + pos)%Z.

Definition toy_getB (s : nat) (pos : Z) : result (vec3 Z) :=
  if Nat.eqb s 9 then Raise (MemberError 9) else Ok (toy_field s pos).

Definition toy_getBsweep (s : nat) (pos : list Z) (multiprocessing : bool)
  (processes : Z) : result (list (vec3 Z)) :=
  mapM (toy_getB s) pos.

Arguments NInt {F} n.
Arguments NFloat {F} x.
Arguments Num {F} a.
Arguments Arr {F} b.
Arguments getB {F} fadd of_int {Source Pos} member_getB self_sources pos.
Arguments getBsweep {F} fadd of_int {Source Pos} isPosVector member_getBsweep
  self_sources pos multiprocessing processes.
Arguments vector_sum {F} fadd of_int first others.
Arguments zero_plus {F} fadd of_int b.
Arguments add3 {F} fadd a b.
Arguments floats_of {F} b.
Arguments py_sum {F} fadd of_int xs.
Arguments value_add {F} fadd of_int u v.
Arguments num_add {F} fadd of_int a b.
Arguments sum_over_sources {F} fadd of_int calcFields p srcs acc.
Arguments agree {F} of_int row v.
Arguments acc_plus {F} fadd of_int acc b.
Arguments column {F} calcFields p.

End Field.


(** * The transform broadcast *)

Module Transform.

Import Registry Field.
Local Open Scope R_scope.

Definition vec : Type := vec3 R.

Definition vadd (a b : vec) : vec :=
  mkVec3 (vx a + vx b) (vy a + vy b) (vz a + vz b).
Definition vsub (a b : vec) : vec :=
  mkVec3 (vx a - vx b) (vy a - vy b) (vz a - vz b).
Definition vscale (c : R) (a : vec) : vec :=
  mkVec3 (c * vx a) (c * vy a) (c * vz a).
Definition dot (a b : vec) : R := vx a * vx b + vy a * vy b + vz a * vz b.
Definition cross (a b : vec) : vec :=
  mkVec3 (vy a * vz b - vz a * vy b) (vz a * vx b - vx a * vz b)
    (vx a * vy b - vy a * vx b).
Definition norm (a : vec) : R := sqrt (dot a a).

(** Modelled from the spec: the angle-axis (Rodrigues) rotation of the Rigid
    Transform Engine, whose code is not among the sources, over the real
    numbers: [v] turned by [angleDegrees] about the unit vector [k]. *)
Definition rodrigues (angleDegrees : R) (k v : vec) : vec :=
  let t := angleDegrees * PI / 180 in
  vadd (vadd (vscale (cos t) v) (vscale (sin t) (cross k v)))
    (vscale (dot k v * (1 - cos t)) k).

(** Modelled from the spec: where [rotateVector] takes [vector] when the
    axis is not degenerate: [vector - anchor] is rotated about the
    normalized axis and [anchor] is added back; an angle of exactly 0
    returns the input. *)
Definition rotated (angleDegrees : R) (axis anchor vector : vec) : vec :=
  if Req_dec_T angleDegrees 0 then vector
  else
    vadd (rodrigues angleDegrees (vscale (/ norm axis) axis) (vsub vector anchor))
      anchor.

(** Modelled from the spec: [rotateVector] of the Rigid Transform Engine; a
    zero-length axis is an error. *)
Definition rotateVector (vector : vec) (angleDegrees : R) (axis anchor : vec)
  : result vec :=
  if Req_dec_T (norm axis) 0 then Raise DegenerateAxisError
  else Ok (rotated angleDegrees axis anchor vector).

(** Modelled from the spec: how an orientation (angle, axis) poses the
    canonical geometry: each of its vectors is turned by the angle about
    the normalized axis. *)
Definition acts (o : R * vec) (v : vec) : vec :=
  rodrigues (fst o) (vscale (/ norm (snd o)) (snd o)) v.

(** The pose of a source. *)
Record SourceState : Type := mkSource {
  position : vec;
  angle : R;
  axis : vec
}.

Definition orientation (s : SourceState) : R * vec := (angle s, axis s).

(** The [anchor] argument: the default string ['self.position'] or a point. *)
Inductive anchor_arg : Type :=
| SelfPosition
| AnchorAt (P : vec).

Section Broadcast.

(** Modelled from the spec: [composeOrientation] of the Rigid Transform
    Engine. The spec leaves its representation to the implementation, so it
    is a parameter here. *)
Variable composeOrientation : R -> vec -> R -> vec -> R * vec.

Definition turned (angleDegrees : R) (ax : vec) (o : R * vec) : R * vec :=
  composeOrientation (fst o) (snd o) angleDegrees ax.

Definition pivot_of (anchor : anchor_arg) (s : SourceState) : vec :=
  match anchor with
  | SelfPosition => position s
  | AnchorAt P => P
  end.

(** Modelled from the spec: a member's own [rotate], whose code is not among
    the sources: with the default anchor the member pivots about its own
    current position, else about the given point; its orientation is
    composed with the incoming rotation. *)
Definition Source_rotate (angleDegrees : R) (ax : vec) (anchor : anchor_arg)
  (s : SourceState) : result SourceState :=
  rbind (rotateVector (position s) angleDegrees ax (pivot_of anchor s))
    (fun p =>
       let o := turned angleDegrees ax (orientation s) in
       Ok (mkSource p (fst o) (snd o))).

(** The pose [Source_rotate] leaves when it returns. *)
Definition rotate_step (angleDegrees : R) (ax : vec) (anchor : anchor_arg)
  (s : SourceState) : SourceState :=
  let o := turned angleDegrees ax (orientation s) in
  mkSource (rotated angleDegrees ax (pivot_of anchor s) (position s))
    (fst o) (snd o).

(** Modelled from the spec: a member's own [move]: [position += displacement]. *)
Definition Source_move (displacement : vec) (s : SourceState)
  : result SourceState :=
  Ok (mkSource (vadd (position s) displacement) (angle s) (axis s)).

Definition set_source (h : nat -> SourceState) (id : nat) (s : SourceState)
  : nat -> SourceState :=
  fun j => if Nat.eqb j id then s else h j.

(** [s.method(...)] on a member [s] of the collection: for a source, the
    object the reference points to is updated in the store; a member that
    is itself a Collection has [move] and [rotate], which run the same loop
    over its own members; any other object has no such method. *)
Fixpoint call_on (method : SourceState -> result SourceState) (s : pyobj)
  {struct s} : M (World SourceState) unit :=
  match s with
  | Source id =>
      fun w =>
        match method (store _ w id) with
        | Ok s' => (mkWorld _ (set_source (store _ w) id s') (self_sources _ w), Ok tt)
        | Raise e => (w, Raise e)
        end
  | Collection sources =>
      (fix each (members : list pyobj) : M (World SourceState) unit :=
         match members with
         | [] => ret tt
         | m :: rest => bind (call_on method m) (fun _ => each rest)
         end) sources
  | _ => fun w => (w, Raise AttributeError)
  end.

Definition move (displacement : vec) : M (World SourceState) unit :=
  fun w => for_each (call_on (Source_move displacement)) (self_sources _ w) w.

Definition rotate (angleDegrees : R) (ax : vec) (anchor : anchor_arg)
  : M (World SourceState) unit :=
  fun w =>
    for_each (call_on (Source_rotate angleDegrees ax anchor))
      (self_sources _ w) w.

(** Modelled from the spec: what the spec asks of [composeOrientation], for
    the members of one collection and one incoming rotation ("each member
    rotates rigidly"): the member's own axis is not degenerate, and its new
    orientation turns every vector as its existing orientation followed by
    the incoming rotation. *)
Definition rigid (w : World SourceState) (angleDegrees : R) (ax : vec) : Prop :=
  forall id, In (Source id) (self_sources _ w) ->
    norm (axis (store _ w id)) <> 0
    /\ forall v,
         acts (turned angleDegrees ax (orientation (store _ w id))) v
         = acts (angleDegrees, ax) (acts (orientation (store _ w id)) v).

(** C2 in the specification's words, at one collection, rotation and
    point [P]: the self-anchored rotation changes every member's
    orientation and keeps its position; the rotation about [P] changes
    every member's position and orientation. *)
Definition rotate_as_stated (w : World SourceState) (angleDegrees : R)
  (ax P : vec) : Prop :=
  forall id, In (Source id) (self_sources _ w) ->
    let before := store _ w id in
    let spun := store _ (fst (rotate angleDegrees ax SelfPosition w)) id in
    let orbited := store _ (fst (rotate angleDegrees ax (AnchorAt P) w)) id in
    orientation spun <> orientation before
    /\ position spun = position before
    /\ position orbited <> position before
    /\ orientation orbited <> orientation before.

End Broadcast.

(** The squared distance between two points. *)
Definition dist2 (a b : vec) : R := dot (vsub a b) (vsub a b).

(** A collection of one unrotated source (angle 0, axis (0, 0, 1), as the
    sources in the docstring of [rotate]) placed at the point [p]. *)
Definition lone_source_at (p : vec) : World SourceState :=
  mkWorld _ (fun _ => mkSource p 0 (mkVec3 0 0 1)) [Source 0].

(** Whether the call on the member [o] gets to the source [id]: [o] is that
    source, or a Collection that holds it at some depth. *)
Fixpoint reaches (id : nat) (o : pyobj) {struct o} : bool :=
  match o with
  | Source j => Nat.eqb id j
  | Collection sources =>
      (fix any (members : list pyobj) : bool :=
         match members with
         | [] => false
         | m :: rest => reaches id m || any rest
         end) sources
  | _ => false
  end.

(** [for s in self.sources: s.method(...)]: the loop that is the whole body
    of [move] and of [rotate], for any method of the members. *)
Definition broadcast (method : SourceState -> result SourceState)
  : M (World SourceState) unit :=
  fun w => for_each (call_on method) (self_sources _ w) w.

End Transform.


(** * The bookkeeping of [displaySystem] *)

Module Display.

Import Registry.

(** The classes [displaySystem] tells apart with [type(s) is ...]. *)
Inductive source_class : Type :=
| Box
| Cylinder
| Sphere
| Line
| Circular
| Dipole
| OtherClass.

(** [l[i]] *)
Definition py_getitem {A} (l : list A) (i : Z) : result A :=
  let n := Z.of_nat (length l) in
  let j := if (i <? 0)%Z then (i + n)%Z else i in
  if ((j <? 0) || (n <=? j))%Z then Raise IndexError
  else
    match nth_error l (Z.to_nat j) with
    | Some x => Ok x
    | None => Raise IndexError
    end.

Section Colours.

(** What matplotlib provides: [palette n k] is [cm(linspace(0, 1, n)[k])],
    colour number [k] of [n] evenly spaced ones. [class_of s] is [type(s)]. *)
Variable Color : Type.
Variable palette : nat -> nat -> Color.
Variable class_of : pyobj -> source_class.

Definition is_magnet (s : pyobj) : bool :=
  match class_of s with
  | Box | Cylinder | Sphere => true
  | _ => false
  end.

Definition is_current (s : pyobj) : bool :=
  match class_of s with
  | Line | Circular => true
  | _ => false
  end.

Definition is_dipole (s : pyobj) : bool :=
  match class_of s with
  | Dipole => true
  | _ => false
  end.

(** The first loop: [Nm += 1] for every Box, Cylinder or Sphere. *)
Fixpoint count_magnets (sources : list pyobj) (Nm : nat) : nat :=
  match sources with
  | [] => Nm
  | s :: rest => count_magnets rest (if is_magnet s then Nm + 1 else Nm)
  end.

(** [colors = [cm(x) for x in linspace(0, 1, Nm+1)]] *)
Definition colors (Nm : nat) : list Color :=
  map (palette (Nm + 1)) (seq 0 (Nm + 1)).

(** An entry of [currentsList]: not the member itself but
    [deepcopy(s)] with its [vertices] replaced by the rotated ones. *)
Inductive drawn_current : Type :=
| CopyWithVertices (original : pyobj).

(** [s.color = c]: the attribute is set on the object [s] itself, so every
    reference to [s] sees it. *)
Definition set_color (color : pyobj -> option Color) (s : pyobj) (c : Color)
  : pyobj -> option Color :=
  fun o => if same_source o s then Some c else color o.

(** The variables of the second loop that do not belong to matplotlib: the
    colour counter, the face colour each magnet was plotted with, the
    [color] attribute of the objects, and the three lists handed to the
    arrow and dipole drawing. *)
Record bookkeeping : Type := mkBook {
  ii : Z;
  plotted : list (pyobj * Color);
  magnetsList : list pyobj;
  color : pyobj -> option Color;
  currentsList : list drawn_current;
  dipolesList : list pyobj
}.

(** One turn of the second loop, for the member [s]. *)
Definition display_source (direc : pyobj) (palette_list : list Color) (s : pyobj)
  : M bookkeeping unit :=
  fun b =>
    match class_of s with
    | Box | Cylinder | Sphere =>
        let i := (ii b + 1)%Z in
        match py_getitem palette_list i with
        | Ok c =>
            (mkBook i (plotted b ++ [(s, c)])
               (if is_True direc then magnetsList b ++ [s] else magnetsList b)
               (if is_True direc then set_color (color b) s c else color b)
               (currentsList b) (dipolesList b), Ok tt)
        | Raise e =>
            (mkBook i (plotted b) (magnetsList b) (color b) (currentsList b)
               (dipolesList b), Raise e)
        end
    | Line | Circular =>
        (mkBook (ii b) (plotted b) (magnetsList b) (color b)
           (if is_True direc then currentsList b ++ [CopyWithVertices s]
            else currentsList b)
           (dipolesList b), Ok tt)
    | Dipole =>
        (mkBook (ii b) (plotted b) (magnetsList b) (color b) (currentsList b)
           (dipolesList b ++ [s]), Ok tt)
    | OtherClass => (b, Ok tt)
    end.

(** The two loops over [self.sources]: count, make the palette, then plot
    and sort the members; [ii = -1] and the lists are empty at the start,
    and the objects have the [color] attributes they had. *)
Definition display_members (color_before : pyobj -> option Color)
  (self_sources : list pyobj) (direc : pyobj) : bookkeeping * result unit :=
  let Nm := count_magnets self_sources 0 in
  for_each (display_source direc (colors Nm)) self_sources
    (mkBook (-1) [] [] color_before [] []).

(** The [color] attributes after the magnets [ms] were given the colours
    number [k], [k+1], ... one after the other. *)
Fixpoint recoloured (Nm : nat) (color : pyobj -> option Color) (k : nat)
  (ms : list pyobj) : pyobj -> option Color :=
  match ms with
  | [] => color
  | m :: rest =>
      recoloured Nm (set_color color m (palette (Nm + 1) k)) (S k) rest
  end.

(** The magnets [ms] paired with the colours number [k], [k+1], ... of the
    palette made for [Nm] magnets. *)
Definition painted (Nm k : nat) (ms : list pyobj) : list (pyobj * Color) :=
  combine ms (map (palette (Nm + 1)) (seq k (length ms))).

End Colours.

(** The axis limits: [SYSSIZE] starts at the machine epsilon and is raised
    to every larger [maxSize] met, first over the members, then over the
    markers. Taking the largest absolute value and comparing do not round,
    so real numbers stand for the floats here. *)
Section Limits.

Local Open Scope R_scope.

(** [if maxSize > SYSSIZE: SYSSIZE = maxSize] *)
Definition raise_to (SYSSIZE maxSize : R) : R :=
  if Rgt_dec maxSize SYSSIZE then maxSize else SYSSIZE.

(** [max([abs(pos) for pos in m[:3]])] *)
Definition marker_size (m : Field.vec3 R) : R :=
  Rmax (Rmax (Rabs (Field.vx m)) (Rabs (Field.vy m))) (Rabs (Field.vz m)).

(** [extent s] is the [maxSize] of a member of one of the six classes
    ([amax(abs(v))] over its rotated vertices, which matplotlib and the
    rotation helpers compute); a member of another class is passed over. *)
Variable class_of : pyobj -> source_class.
Variable extent : pyobj -> R.

Definition member_sizes (self_sources : list pyobj) : list R :=
  flat_map
    (fun s => match class_of s with OtherClass => [] | _ => [extent s] end)
    self_sources.

Definition system_size (eps : R) (self_sources : list pyobj)
  (markers : list (Field.vec3 R)) : R :=
  fold_left raise_to (map marker_size markers)
    (fold_left raise_to (member_sizes self_sources) eps).

End Limits.

End Display.


(** * Facts about loops and comprehensions *)

Module PyFacts.

Lemma for_each_app {S A} (body : A -> M S unit) (xs ys : list A) (s : S) :
  for_each body (xs ++ ys) s =
  match for_each body xs s with
  | (s', Ok _) => for_each body ys s'
  | (s', Raise e) => (s', Raise e)
  end.
Proof.
  revert s; induction xs as [|x xs IH]; intros s; simpl.
  - reflexivity.
  - unfold bind. destruct (body x s) as [s1 [[]|e]]; [apply IH | reflexivity].
Qed.

(** A loop whose body keeps an invariant keeps it, however it ends. *)
Lemma for_each_invariant {S A} (I : S -> Prop) (body : A -> M S unit)
  (xs : list A) :
  (forall x s, In x xs -> I s -> I (fst (body x s))) ->
  forall s, I s -> I (fst (for_each body xs s)).
Proof.
  induction xs as [|x xs IH]; intros Hbody s Hs; simpl.
  - exact Hs.
  - unfold bind. pose proof (Hbody x s (or_introl eq_refl) Hs) as H1.
    destruct (body x s) as [s1 [[]|e]]; simpl in *; [|assumption].
    apply IH; [|assumption].
    intros y t Hy. apply Hbody. right. exact Hy.
Qed.

Lemma mapM_Ok_length {A B} (f : A -> result B) (xs : list A) (ys : list B) :
  mapM f xs = Ok ys -> length ys = length xs.
Proof.
  revert ys; induction xs as [|x xs IH]; intros ys; simpl.
  - intros [= <-]. reflexivity.
  - destruct (f x) as [y|e]; simpl; [|discriminate].
    destruct (mapM f xs) as [ys'|e]; simpl; [|discriminate].
    intros [= <-]. simpl. f_equal. apply IH. reflexivity.
Qed.

(** When every call returns, the comprehension returns the results in order. *)
Lemma mapM_all_Ok {A B} (f : A -> result B) (g : A -> B) (xs : list A) :
  (forall x, In x xs -> f x = Ok (g x)) -> mapM f xs = Ok (map g xs).
Proof.
  induction xs as [|x xs IH]; intros H; simpl.
  - reflexivity.
  - rewrite (H x (or_introl eq_refl)). simpl.
    rewrite IH by (intros y Hy; apply H; right; exact Hy). reflexivity.
Qed.

(** The first call that raises ends the comprehension with its exception. *)
Lemma mapM_first_Raise {A B} (f : A -> result B) (before : list A) (x : A)
  (after : list A) (e : exn) :
  (forall y, In y before -> exists b, f y = Ok b) ->
  f x = Raise e ->
  mapM f (before ++ x :: after) = Raise e.
Proof.
  induction before as [|y before IH]; intros Hb Hx; simpl.
  - rewrite Hx. reflexivity.
  - destruct (Hb y (or_introl eq_refl)) as [b ->]. simpl.
    rewrite IH; [reflexivity| |exact Hx].
    intros z Hz. apply Hb. right. exact Hz.
Qed.

(** A comprehension that returns had every call return. *)
Lemma mapM_Ok_inv {A B} (f : A -> result B) (xs : list A) (ys : list B) :
  mapM f xs = Ok ys -> forall x, In x xs -> exists y, f x = Ok y /\ In y ys.
Proof.
  revert ys; induction xs as [|x xs IH]; intros ys H z Hz; [destruct Hz|].
  simpl in H. destruct (f x) as [y|e] eqn:Ex; simpl in H; [|discriminate].
  destruct (mapM f xs) as [ys'|e] eqn:Em; simpl in H; [|discriminate].
  injection H as <-. destruct Hz as [<-|Hz].
  - exists y. split; [exact Ex | left; reflexivity].
  - destruct (IH ys' eq_refl z Hz) as [y' [H1 H2]].
    exists y'. split; [exact H1 | right; exact H2].
Qed.

(** A comprehension either returns or some call raised what it raises. *)
Lemma mapM_Raise_inv {A B} (f : A -> result B) (xs : list A) (e : exn) :
  mapM f xs = Raise e -> exists x, In x xs /\ f x = Raise e.
Proof.
  induction xs as [|x xs IH]; simpl; [discriminate|].
  destruct (f x) as [y|e'] eqn:Ex; simpl.
  - destruct (mapM f xs) as [ys|e'']; simpl; [discriminate|].
    intros [= ->]. destruct (IH eq_refl) as [z [Hz Hf]].
    exists z. split; [right; exact Hz | exact Hf].
  - intros [= ->]. exists x. split; [left; reflexivity | exact Ex].
Qed.

End PyFacts.


(** * The registry: flattening, uniqueness, removal *)

Module RegistryFacts.

Import Registry PyFacts.

Lemma same_source_eq (y x : pyobj) : same_source y x = true -> y = x.
Proof.
  destruct y, x; simpl; try discriminate.
  intros H. apply Nat.eqb_eq in H. congruence.
Qed.

Lemma same_source_refl (s : pyobj) : isSource s = true -> same_source s s = true.
Proof. destruct s; simpl; try discriminate. intros _. apply Nat.eqb_refl. Qed.

Lemma same_source_neq (y x : pyobj) : y <> x -> same_source y x = false.
Proof.
  intros H. destruct (same_source y x) eqn:E; [|reflexivity].
  apply same_source_eq in E. contradiction.
Qed.

Lemma py_in_In (x : pyobj) (l : list pyobj) : py_in x l = true -> In x l.
Proof.
  unfold py_in. rewrite existsb_exists. intros [y [Hy E]].
  apply same_source_eq in E. subst y. exact Hy.
Qed.

Lemma In_py_in (x : pyobj) (l : list pyobj) :
  isSource x = true -> In x l -> py_in x l = true.
Proof.
  intros Hs Hin. unfold py_in. rewrite existsb_exists.
  exists x. split; [exact Hin | apply same_source_refl; exact Hs].
Qed.

Lemma addUniqueSource_member (s : pyobj) (l : list pyobj) :
  isSource s = true -> In s l -> addUniqueSource s l = (l, Ok tt).
Proof.
  intros Hs Hin. unfold addUniqueSource. rewrite In_py_in by assumption.
  reflexivity.
Qed.

Lemma addUniqueSource_new (s : pyobj) (l : list pyobj) :
  ~ In s l -> addUniqueSource s l = (l ++ [s], Ok tt).
Proof.
  intros Hn. unfold addUniqueSource.
  destruct (py_in s l) eqn:E; [|reflexivity].
  apply py_in_In in E. contradiction.
Qed.

Lemma addUniqueSource_unique (s : pyobj) (l : list pyobj) :
  isSource s = true -> unique_sources l ->
  unique_sources (fst (addUniqueSource s l)).
Proof.
  intros Hs [Hf Hn]. unfold addUniqueSource.
  destruct (py_in s l) eqn:E; simpl; [split; assumption|].
  split.
  - apply Forall_app. split; [exact Hf | constructor; [exact Hs | constructor]].
  - apply NoDup_rev in Hn. rewrite <- (rev_involutive (l ++ [s])).
    apply NoDup_rev. rewrite rev_app_distr. simpl. constructor; [|exact Hn].
    rewrite <- in_rev. intros Hin.
    rewrite (In_py_in s l Hs Hin) in E. discriminate.
Qed.

Lemma forallb_isSource_In (l : list pyobj) (x : pyobj) :
  forallb isSource l = true -> In x l -> isSource x = true.
Proof. intros H Hin. rewrite forallb_forall in H. apply H. exact Hin. Qed.

Lemma add_argument_unique (s : pyobj) (l : list pyobj) :
  unique_sources l -> unique_sources (fst (add_argument (PyBool true) s l)).
Proof.
  intros Hl.
  assert (Hlist : forall xs, unique_sources
            (fst (addListToCollection xs (PyBool true) l))).
  { intros xs. unfold addListToCollection, bind, assert.
    destruct (forallb isSource xs) eqn:E; simpl; [|exact Hl].
    apply for_each_invariant; [|exact Hl].
    intros x t Hx Ht. apply addUniqueSource_unique; [|exact Ht].
    eapply forallb_isSource_In; eassumption. }
  destruct s; simpl; try exact Hl; try apply Hlist.
  unfold bind; simpl. apply addUniqueSource_unique; [reflexivity | exact Hl].
Qed.

Lemma addSources_unique (sources l : list pyobj) :
  unique_sources l -> unique_sources (fst (addSources sources (PyBool true) l)).
Proof.
  intros Hl. unfold addSources. apply for_each_invariant; [|exact Hl].
  intros x t _ Ht. apply add_argument_unique. exact Ht.
Qed.

Lemma firstn_length_app (l1 l2 : list pyobj) :
  firstn (length l1) (l1 ++ l2) = l1.
Proof. induction l1 as [|a l1 IH]; simpl; [destruct l2 | rewrite IH]; reflexivity. Qed.

Lemma skipn_S_length_app (l1 l2 : list pyobj) (y : pyobj) :
  skipn (S (length l1)) (l1 ++ y :: l2) = l2.
Proof. induction l1 as [|a l1 IH]; simpl; [reflexivity | exact IH]. Qed.

Lemma fits_ssize_t_range (i : Z) :
  fits_ssize_t i = true <-> (- 2 ^ 63 <= i < 2 ^ 63)%Z.
Proof.
  unfold fits_ssize_t. rewrite andb_true_iff, Z.leb_le, Z.ltb_lt. reflexivity.
Qed.

(** What [pop] does to the list: one position goes, the rest stays in order. *)
Lemma list_pop_Some (l : list pyobj) (i : Z) (x : pyobj) (rest : list pyobj) :
  list_pop l i = Ok (x, rest) ->
  exists l1 l2, l = l1 ++ x :: l2 /\ rest = l1 ++ l2 /\
    Z.of_nat (length l1) = (if i <? 0 then i + Z.of_nat (length l) else i)%Z.
Proof.
  unfold list_pop. destruct (fits_ssize_t i); [|discriminate].
  set (j := (if (i <? 0)%Z then (i + Z.of_nat (length l))%Z else i)).
  destruct ((j <? 0)%Z || (Z.of_nat (length l) <=? j)%Z) eqn:E; [discriminate|].
  apply orb_false_iff in E. destruct E as [E1 E2].
  apply Z.ltb_ge in E1. apply Z.leb_gt in E2.
  destruct (nth_error l (Z.to_nat j)) as [y|] eqn:En; [|discriminate].
  intros [= <- <-].
  destruct (nth_error_split l (Z.to_nat j) En) as [l1 [l2 [Hl Hlen]]].
  exists l1, l2. split; [exact Hl|]. split; [|lia].
  rewrite <- Hlen. rewrite Hl at 1 2.
  rewrite firstn_length_app.
  change (l1 ++ skipn (S (length l1)) (l1 ++ y :: l2) = l1 ++ l2).
  rewrite skipn_S_length_app. reflexivity.
Qed.

(** When [pop] raises: OverflowError for an int beyond [Py_ssize_t],
    IndexError for one that fits and lies outside the list. *)
Lemma list_pop_Raise (l : list pyobj) (i : Z) :
  (fits_ssize_t i = false -> list_pop l i = Raise OverflowError)
  /\ (fits_ssize_t i = true ->
      (i < - Z.of_nat (length l) \/ Z.of_nat (length l) <= i)%Z ->
      list_pop l i = Raise IndexError)
  /\ (forall e, list_pop l i = Raise e ->
      e = if fits_ssize_t i then IndexError else OverflowError).
Proof.
  unfold list_pop. destruct (fits_ssize_t i).
  2: { split; [reflexivity|]. split; [discriminate|]. intros e [= <-]. reflexivity. }
  split; [discriminate|].
  set (j := (if (i <? 0)%Z then (i + Z.of_nat (length l))%Z else i)).
  assert (Hj : j = (if (i <? 0)%Z then (i + Z.of_nat (length l))%Z else i))
    by reflexivity.
  split.
  - intros _ Hi.
    destruct ((j <? 0)%Z || (Z.of_nat (length l) <=? j)%Z) eqn:E; [reflexivity|].
    apply orb_false_iff in E. destruct E as [E1 E2].
    apply Z.ltb_ge in E1. apply Z.leb_gt in E2.
    destruct (i <? 0)%Z eqn:Ei;
      [apply Z.ltb_lt in Ei | apply Z.ltb_ge in Ei]; lia.
  - intros e.
    destruct ((j <? 0)%Z || (Z.of_nat (length l) <=? j)%Z);
      [intros [= <-]; reflexivity|].
    destruct (nth_error l (Z.to_nat j)); [discriminate | intros [= <-]; reflexivity].
Qed.

(** What [remove] does to the list: the first matching entry goes. *)
Lemma list_remove_Some (x : pyobj) (l rest : list pyobj) :
  isSource x = true ->
  list_remove x l = Some rest ->
  exists l1 l2, l = l1 ++ x :: l2 /\ rest = l1 ++ l2 /\ ~ In x l1.
Proof.
  intros Hx. revert rest; induction l as [|y l IH]; intros rest; simpl; [discriminate|].
  destruct (same_source y x) eqn:E.
  - intros [= <-]. apply same_source_eq in E. subst y.
    exists [], l. repeat split. intros [].
  - destruct (list_remove x l) as [r|]; simpl; [|discriminate].
    intros [= <-]. destruct (IH r eq_refl) as [l1 [l2 [H1 [H2 H3]]]].
    exists (y :: l1), l2. subst. repeat split.
    intros [->|Hin]; [|contradiction].
    rewrite same_source_refl in E by exact Hx. discriminate.
Qed.

Lemma list_remove_first (x : pyobj) (l1 l2 : list pyobj) :
  isSource x = true -> ~ In x l1 ->
  list_remove x (l1 ++ x :: l2) = Some (l1 ++ l2).
Proof.
  intros Hx. induction l1 as [|y l1 IH]; intros Hn; simpl.
  - rewrite same_source_refl by exact Hx. reflexivity.
  - rewrite same_source_neq by (intros ->; apply Hn; left; reflexivity).
    rewrite IH by (intros H; apply Hn; right; exact H). reflexivity.
Qed.

Lemma list_remove_None (x : pyobj) (l : list pyobj) :
  ~ In x l -> list_remove x l = None.
Proof.
  induction l as [|y l IH]; intros Hn; simpl; [reflexivity|].
  rewrite same_source_neq by (intros ->; apply Hn; left; reflexivity).
  rewrite IH by (intros H; apply Hn; right; exact H). reflexivity.
Qed.

Lemma list_pop_at (l1 l2 : list pyobj) (x : pyobj) (i : Z) :
  fits_ssize_t i = true ->
  (i = Z.of_nat (length l1) \/
   i = Z.of_nat (length l1) - Z.of_nat (length (l1 ++ x :: l2)))%Z ->
  list_pop (l1 ++ x :: l2) i = Ok (x, l1 ++ l2).
Proof.
  intros Hfit Hi. unfold list_pop. rewrite Hfit.
  set (n := Z.of_nat (length (l1 ++ x :: l2))).
  assert (Hn : (n = Z.of_nat (length l1) + 1 + Z.of_nat (length l2))%Z)
    by (unfold n; rewrite length_app; simpl; lia).
  assert (Hj : (if (i <? 0)%Z then (i + n)%Z else i) = Z.of_nat (length l1)).
  { destruct (i <? 0)%Z eqn:Ei;
      [apply Z.ltb_lt in Ei | apply Z.ltb_ge in Ei]; lia. }
  rewrite Hj.
  replace ((Z.of_nat (length l1) <? 0)%Z) with false by (symmetry; apply Z.ltb_ge; lia).
  replace ((n <=? Z.of_nat (length l1))%Z) with false by (symmetry; apply Z.leb_gt; lia).
  simpl orb. cbv iota. rewrite Nat2Z.id.
  rewrite nth_error_app2 by lia. rewrite Nat.sub_diag. simpl nth_error. cbv iota.
  rewrite firstn_length_app.
  change (Ok (x, l1 ++ skipn (S (length l1)) (l1 ++ x :: l2)) = Ok (x, l1 ++ l2)).
  rewrite skipn_S_length_app. reflexivity.
Qed.

Lemma removal_keeps_unique (l1 l2 : list pyobj) (x : pyobj) :
  unique_sources (l1 ++ x :: l2) -> unique_sources (l1 ++ l2).
Proof.
  intros [Hf Hn]. split.
  - apply Forall_app in Hf. destruct Hf as [H1 H2]. inversion H2; subst.
    apply Forall_app. split; assumption.
  - eapply NoDup_remove_1. exact Hn.
Qed.

Lemma removeSource_unique (source_ref : pyobj) (l : list pyobj) :
  unique_sources l -> unique_sources (fst (removeSource source_ref l)).
Proof.
  intros Hl.
  assert (Hrem : forall s, isSource s = true ->
            unique_sources
              (fst (match list_remove s l with
                    | Some rest => (rest, Ok s)
                    | None => (l, Raise ValueError)
                    end))).
  { intros s Hs. destruct (list_remove s l) as [rest|] eqn:E; simpl; [|exact Hl].
    destruct (list_remove_Some s l rest Hs E) as [l1 [l2 [H1 [H2 _]]]].
    subst. eapply removal_keeps_unique. exact Hl. }
  destruct source_ref; simpl; try exact Hl.
  - apply (Hrem (Source id) eq_refl).
  - destruct (list_pop l n) as [[x rest]|e] eqn:E; simpl;
      [|destruct e; exact Hl].
    destruct (list_pop_Some l n x rest E) as [l1 [l2 [H1 [H2 _]]]].
    subst. eapply removal_keeps_unique. exact Hl.
Qed.

Lemma built_checked_unique (l : list pyobj) :
  built_checked l -> unique_sources l.
Proof.
  induction 1 as [sources | l sources _ IH | l source_ref _ IH].
  - apply (addSources_unique sources []). split; constructor.
  - apply addSources_unique. exact IH.
  - apply removeSource_unique. exact IH.
Qed.

Lemma occurrences_absent (s : pyobj) (l : list pyobj) :
  ~ In s l -> occurrences s l = 0%nat.
Proof.
  unfold occurrences. induction l as [|y l IH]; intros Hn; simpl; [reflexivity|].
  rewrite same_source_neq by (intros ->; apply Hn; left; reflexivity).
  apply IH. intros H. apply Hn. right. exact H.
Qed.

Lemma occurrences_once (s : pyobj) (l : list pyobj) :
  isSource s = true -> NoDup l -> In s l -> occurrences s l = 1%nat.
Proof.
  intros Hs Hn. induction Hn as [|y l Hy Hn IH]; intros Hin; [destruct Hin|].
  unfold occurrences in *. simpl. destruct Hin as [->|Hin].
  - rewrite same_source_refl by exact Hs. simpl.
    f_equal. apply (occurrences_absent s l Hy).
  - rewrite same_source_neq by (intros ->; contradiction).
    apply IH. exact Hin.
Qed.

Lemma occurrences_snoc (s : pyobj) (l : list pyobj) :
  isSource s = true -> occurrences s (l ++ [s]) = S (occurrences s l).
Proof.
  intros Hs. unfold occurrences. rewrite filter_app, length_app. simpl.
  rewrite same_source_refl by exact Hs. simpl. lia.
Qed.

Lemma add_argument_checked (dupWarning s : pyobj) (l : list pyobj) :
  is_True dupWarning = true -> isSource s = true ->
  add_argument dupWarning s l = addUniqueSource s l.
Proof.
  intros Hd Hs. destruct s; try discriminate.
  simpl. unfold bind. simpl. rewrite Hd. reflexivity.
Qed.

Lemma add_argument_unchecked (dupWarning s : pyobj) (l : list pyobj) :
  is_True dupWarning = false -> isSource s = true ->
  add_argument dupWarning s l = (l ++ [s], Ok tt).
Proof.
  intros Hd Hs. destruct s; try discriminate.
  simpl. unfold bind. simpl. rewrite Hd. reflexivity.
Qed.

Lemma addSources_unchecked (dupWarning : pyobj) (members l : list pyobj) :
  is_True dupWarning = false -> forallb isSource members = true ->
  addSources members dupWarning l = (l ++ members, Ok tt).
Proof.
  intros Hd. unfold addSources. revert l.
  induction members as [|x xs IH]; intros l Hm; simpl.
  - unfold ret. rewrite app_nil_r. reflexivity.
  - simpl in Hm. apply andb_true_iff in Hm. destruct Hm as [Hx Hxs].
    unfold bind. rewrite add_argument_unchecked by assumption.
    rewrite IH by exact Hxs. rewrite <- app_assoc. reflexivity.
Qed.

Lemma addSources_checked (dupWarning : pyobj) (members l : list pyobj) :
  is_True dupWarning = true -> forallb isSource members = true ->
  addSources members dupWarning l = for_each addUniqueSource members l.
Proof.
  intros Hd. unfold addSources. revert l.
  induction members as [|x xs IH]; intros l Hm; simpl; [reflexivity|].
  simpl in Hm. apply andb_true_iff in Hm. destruct Hm as [Hx Hxs].
  unfold bind. rewrite add_argument_checked by assumption.
  destruct (addUniqueSource x l) as [l' [[]|e]]; [apply IH; exact Hxs | reflexivity].
Qed.

(** A Collection argument whose members are sources is taken in as if its
    members had been passed one by one; a list or tuple likewise. *)
Lemma Collection_argument_is_spliced (dupWarning : pyobj) (members l : list pyobj) :
  forallb isSource members = true ->
  add_argument dupWarning (Collection members) l = addSources members dupWarning l
  /\ add_argument dupWarning (Sequence members) l = addSources members dupWarning l.
Proof.
  intros Hm.
  assert (H : addListToCollection members dupWarning l =
              addSources members dupWarning l).
  { unfold addListToCollection, bind, assert. rewrite Hm. simpl.
    destruct (is_True dupWarning) eqn:Ed.
    - rewrite addSources_checked by assumption. reflexivity.
    - rewrite addSources_unchecked by assumption. reflexivity. }
  split; exact H.
Qed.

(** Flattening in general: a nested Collection anywhere among the arguments
    gives the member list its members would have given in its place. *)
Lemma nested_Collection_is_flattened (dupWarning : pyobj)
  (before members after l : list pyobj) :
  forallb isSource members = true ->
  addSources (before ++ Collection members :: after) dupWarning l =
  addSources (before ++ members ++ after) dupWarning l.
Proof.
  intros Hm. unfold addSources. rewrite !for_each_app.
  destruct (for_each (add_argument dupWarning) before l) as [l1 [[]|e]];
    [|reflexivity].
  rewrite for_each_app. simpl. unfold bind.
  destruct (Collection_argument_is_spliced dupWarning members l1 Hm) as [H _].
  simpl in H. rewrite H. unfold addSources.
  destruct (for_each (add_argument dupWarning) members l1) as [l2 [[]|e]];
    reflexivity.
Qed.

(** The members of a collection are sources, whatever the duplicate policy. *)
Lemma members_are_sources (dupWarning : pyobj) (sources l : list pyobj) :
  forallb isSource l = true ->
  forallb isSource (fst (addSources sources dupWarning l)) = true.
Proof.
  unfold addSources.
  apply (for_each_invariant (fun l => forallb isSource l = true)).
  intros x t _ Ht.
  assert (Hu : forall s, isSource s = true ->
            forallb isSource (fst (addUniqueSource s t)) = true).
  { intros s Hs. unfold addUniqueSource. destruct (py_in s t); simpl; [exact Ht|].
    rewrite forallb_app, Ht. simpl. rewrite Hs. reflexivity. }
  assert (Hlist : forall xs,
            forallb isSource (fst (addListToCollection xs dupWarning t)) = true).
  { intros xs. unfold addListToCollection, bind, assert.
    destruct (forallb isSource xs) eqn:E; simpl; [|exact Ht].
    destruct (is_True dupWarning); simpl.
    - apply (for_each_invariant (fun l => forallb isSource l = true)); [|exact Ht].
      intros y u Hy Hu'. unfold addUniqueSource.
      destruct (py_in y u); simpl; [exact Hu'|].
      rewrite forallb_app, Hu'. simpl.
      rewrite (forallb_isSource_In xs y E Hy). reflexivity.
    - rewrite forallb_app, Ht, E. reflexivity. }
  destruct x; simpl; try exact Ht; try apply Hlist.
  unfold bind. simpl. destruct (is_True dupWarning); simpl.
  - apply Hu. reflexivity.
  - rewrite forallb_app, Ht. reflexivity.
Qed.

(** C5, as the specification states it, fails: with the duplicate check on
    (the default), [Collection(Collection(a, a), c)] has the members
    [[a, c]], not [[a, a, c]]. *)
Lemma flattening_drops_a_repeated_source :
  ~ (forall a b c : nat,
        fst (__init__
               [Collection (fst (__init__ [Source a; Source b] (PyBool true)));
                Source c] (PyBool true))
        = [Source a; Source b; Source c]).
Proof.
  intros H. specialize (H 0%nat 0%nat 1%nat). vm_compute in H. discriminate H.
Qed.

(** C5 (amended): for sources a, b, c that are pairwise distinct when the
    duplicate check is on (any a, b, c when it is off),
    [Collection(Collection(a, b), c)] has exactly the members [[a, b, c]]:
    the inner collection's members are inserted and no Collection object is
    a member; the same holds for a list or tuple argument and for
    [addSources] on an existing collection. *)
Theorem nested_collection_members_are_inserted (a b c : nat) (dupWarning : pyobj) :
  (dupWarning = PyBool true -> a <> b /\ a <> c /\ b <> c) ->
  let flat := [Source a; Source b; Source c] in
  __init__ [Collection (fst (__init__ [Source a; Source b] dupWarning)); Source c]
    dupWarning = (flat, Ok tt)
  /\ __init__ [Sequence [Source a; Source b]; Source c] dupWarning = (flat, Ok tt)
  /\ addSources [Collection (fst (__init__ [Source b; Source c] dupWarning))]
       dupWarning (fst (__init__ [Source a] dupWarning)) = (flat, Ok tt)
  /\ addSources [Sequence [Source b; Source c]] dupWarning
       (fst (__init__ [Source a] dupWarning)) = (flat, Ok tt)
  /\ forallb isSource flat = true.
Proof.
  intros Hd flat.
  destruct (is_True dupWarning) eqn:Ed.
  - assert (dupWarning = PyBool true) as ->
      by (destruct dupWarning as [| | | |[]|]; try discriminate; reflexivity).
    destruct (Hd eq_refl) as [Hab [Hac Hbc]].
    assert (Eab : Nat.eqb a b = false) by (apply Nat.eqb_neq; exact Hab).
    assert (Eac : Nat.eqb a c = false) by (apply Nat.eqb_neq; exact Hac).
    assert (Ebc : Nat.eqb b c = false) by (apply Nat.eqb_neq; exact Hbc).
    assert (Eba : Nat.eqb b a = false) by (apply Nat.eqb_neq; congruence).
    assert (Eca : Nat.eqb c a = false) by (apply Nat.eqb_neq; congruence).
    assert (Ecb : Nat.eqb c b = false) by (apply Nat.eqb_neq; congruence).
    unfold flat, __init__, addSources, addListToCollection.
    repeat (unfold bind, ret, assert, addUniqueSource, py_in;
            cbn -[Nat.eqb];
            rewrite ?Eab, ?Eac, ?Ebc, ?Eba, ?Eca, ?Ecb).
    repeat split; reflexivity.
  - assert (Hinit : forall xs, forallb isSource xs = true ->
              __init__ xs dupWarning = (xs, Ok tt)).
    { intros xs Hxs. apply (addSources_unchecked dupWarning xs [] Ed Hxs). }
    rewrite (Hinit [Source a; Source b] eq_refl), (Hinit [Source b; Source c] eq_refl),
      (Hinit [Source a] eq_refl). simpl fst.
    assert (Hadd : forall xs l, forallb isSource xs = true ->
              addSources [Collection xs] dupWarning l = (l ++ xs, Ok tt) /\
              addSources [Sequence xs] dupWarning l = (l ++ xs, Ok tt)).
    { intros xs l Hxs. unfold addSources. cbn [for_each]. unfold bind.
      destruct (Collection_argument_is_spliced dupWarning xs l Hxs) as [H1 H2].
      rewrite H1, H2. rewrite addSources_unchecked by assumption.
      split; reflexivity. }
    unfold __init__.
    change (for_each (add_argument dupWarning) (?x :: [Source c]) [])
      with (addSources ([x] ++ [Source c]) dupWarning []).
    unfold addSources at 1 2. rewrite !for_each_app.
    change (for_each (add_argument dupWarning) ?xs ?l)
      with (addSources xs dupWarning l).
    rewrite (proj1 (Hadd [Source a; Source b] [] eq_refl)).
    rewrite (proj2 (Hadd [Source a; Source b] [] eq_refl)).
    rewrite (proj1 (Hadd [Source b; Source c] [Source a] eq_refl)).
    rewrite (proj2 (Hadd [Source b; Source c] [Source a] eq_refl)).
    rewrite (addSources_unchecked dupWarning [Source c] _ Ed eq_refl).
    repeat split; reflexivity.
Qed.

Lemma nested_collection_members_are_inserted_witness :
  (PyBool true = PyBool true -> 1 <> 2 /\ 1 <> 3 /\ 2 <> 3)%nat /\
  __init__ [Collection (fst (__init__ [Source 1; Source 2] (PyBool true)));
            Source 3] (PyBool true)
  = ([Source 1; Source 2; Source 3], Ok tt).
Proof.
  assert (H : (PyBool true = PyBool true -> 1 <> 2 /\ 1 <> 3 /\ 2 <> 3)%nat)
    by (intros _; repeat split; discriminate).
  split; [exact H|].
  exact (proj1 (nested_collection_members_are_inserted 1 2 3 (PyBool true) H)).
Defined.

(** C6: in a collection built and extended with the duplicate check on, no
    reference occurs twice, and adding a reference that is already a member
    (which here never raises: the duplicate is dropped) leaves the member
    list as it was, with exactly one occurrence of that reference. *)
Theorem checked_collection_holds_each_source_once (l : list pyobj) :
  built_checked l ->
  NoDup l
  /\ (forall s, (occurrences s l <= 1)%nat)
  /\ (forall s, In s l ->
        addSources [s] (PyBool true) l = (l, Ok tt)
        /\ occurrences s (fst (addSources [s] (PyBool true) l)) = 1%nat).
Proof.
  intros Hb. destruct (built_checked_unique l Hb) as [Hf Hn].
  assert (Hsrc : forall s, In s l -> isSource s = true).
  { intros s Hs. rewrite Forall_forall in Hf. apply Hf. exact Hs. }
  split; [exact Hn|]. split.
  - intros s. destruct (py_in s l) eqn:E.
    + apply py_in_In in E. rewrite occurrences_once; auto.
    + rewrite occurrences_absent; [lia|].
      intros Hin. rewrite (In_py_in s l (Hsrc s Hin) Hin) in E. discriminate.
  - intros s Hs.
    assert (Hadd : addSources [s] (PyBool true) l = (l, Ok tt)).
    { unfold addSources. cbn [for_each]. unfold bind.
      rewrite add_argument_checked by (auto; reflexivity).
      rewrite addUniqueSource_member by auto. reflexivity. }
    rewrite Hadd. split; [reflexivity|].
    simpl fst. apply occurrences_once; auto.
Qed.

Lemma checked_collection_holds_each_source_once_witness :
  built_checked [Source 4; Source 5] /\
  addSources [Source 4] (PyBool true) [Source 4; Source 5]
  = ([Source 4; Source 5], Ok tt).
Proof.
  assert (H : built_checked [Source 4; Source 5])
    by exact (built_init [Source 4; Source 5; Source 4]).
  split; [exact H|].
  exact (proj1 (proj2 (proj2 (checked_collection_holds_each_source_once _ H))
                  (Source 4) (or_introl eq_refl))).
Defined.

(** C7, as the specification states it, fails: an int that is out of range
    but does not fit a machine index, here 2^70 on a collection of two,
    makes [pop] raise OverflowError, which the handler for IndexError lets
    through; no IndexError is raised. *)
Lemma removeSource_of_a_huge_int_is_no_IndexError :
  ~ (forall (l : list pyobj) (i : Z),
        (i < - Z.of_nat (length l) \/ Z.of_nat (length l) <= i)%Z ->
        snd (removeSource (PyInt i) l) = Raise IndexError).
Proof.
  intros H. specialize (H [Source 0; Source 1] (2 ^ 70)%Z).
  assert (Hr : (2 ^ 70 < - Z.of_nat (length [Source 0; Source 1])
                \/ Z.of_nat (length [Source 0; Source 1]) <= 2 ^ 70)%Z)
    by (right; simpl; lia).
  specialize (H Hr). vm_compute in H. discriminate H.
Qed.

(** C7 (amended): [removeSource] with an int that fits a machine index
    ([Py_ssize_t]) pops and returns the member at that index (negative
    indices count from the end, the default is the last member) and raises
    IndexError out of range; an int that does not fit raises OverflowError.
    With a Source it removes the first matching entry and returns that
    source, and raises ValueError when the source is not a member. The
    members that remain keep their order, a call that raises leaves the
    member list as it was, and the Source objects in the store are left as
    they were: the method reads and rebinds the member list only. *)
Theorem removeSource_pops_or_removes (l : list pyobj) :
  (forall l1 x l2 i, l = l1 ++ x :: l2 -> fits_ssize_t i = true ->
     (i = Z.of_nat (length l1) \/
      i = Z.of_nat (length l1) - Z.of_nat (length l))%Z ->
     removeSource (PyInt i) l = (l1 ++ l2, Ok x))
  /\ (forall i, fits_ssize_t i = true ->
        (i < - Z.of_nat (length l) \/ Z.of_nat (length l) <= i)%Z ->
        removeSource (PyInt i) l = (l, Raise IndexError))
  /\ (forall i, fits_ssize_t i = false ->
        removeSource (PyInt i) l = (l, Raise OverflowError))
  /\ (forall l1 x, l = l1 ++ [x] -> removeSource_default l = (l1, Ok x))
  /\ (l = [] -> removeSource_default l = (l, Raise IndexError))
  /\ (forall s l1 l2, isSource s = true -> l = l1 ++ s :: l2 -> ~ In s l1 ->
        removeSource s l = (l1 ++ l2, Ok s))
  /\ (forall s, isSource s = true -> ~ In s l ->
        removeSource s l = (l, Raise ValueError))
  /\ (forall (SourceState : Type) (h : nat -> SourceState) (source_ref : pyobj),
        let after := fst (on_sources SourceState (removeSource source_ref)
                            (mkWorld SourceState h l)) in
        store SourceState after = h
        /\ self_sources SourceState after = fst (removeSource source_ref l)).
Proof.
  assert (Hpop : forall l1 x l2 i, l = l1 ++ x :: l2 -> fits_ssize_t i = true ->
     (i = Z.of_nat (length l1) \/
      i = Z.of_nat (length l1) - Z.of_nat (length l))%Z ->
     removeSource (PyInt i) l = (l1 ++ l2, Ok x)).
  { intros l1 x l2 i -> Hfit Hi. simpl.
    rewrite list_pop_at by assumption. reflexivity. }
  split; [exact Hpop|]. repeat apply conj.
  - intros i Hfit Hi. simpl.
    rewrite (proj1 (proj2 (list_pop_Raise l i)) Hfit Hi). reflexivity.
  - intros i Hfit. simpl.
    rewrite (proj1 (list_pop_Raise l i) Hfit). reflexivity.
  - intros l1 x Hl. unfold removeSource_default.
    rewrite (Hpop l1 x [] (-1)%Z Hl eq_refl).
    + rewrite app_nil_r. reflexivity.
    + right. rewrite Hl, length_app. simpl. lia.
  - intros ->. reflexivity.
  - intros s l1 l2 Hs -> Hn. destruct s; try discriminate.
    simpl. unfold bind. simpl.
    rewrite (list_remove_first (Source id) l1 l2 eq_refl Hn). reflexivity.
  - intros s Hs Hn. destruct s; try discriminate.
    simpl. unfold bind. simpl.
    rewrite (list_remove_None (Source id) l Hn). reflexivity.
  - intros SourceState h source_ref. unfold on_sources. simpl.
    destruct (removeSource source_ref l) as [l' r]. simpl. split; reflexivity.
Qed.

Lemma removeSource_pops_or_removes_witness :
  removeSource (PyInt (-1)) [Source 0; Source 1] = ([Source 0], Ok (Source 1))
  /\ removeSource (PyInt 2) [Source 0; Source 1]
     = ([Source 0; Source 1], Raise IndexError)
  /\ removeSource (PyInt (2 ^ 70)) [Source 0; Source 1]
     = ([Source 0; Source 1], Raise OverflowError)
  /\ removeSource (Source 0) [Source 0; Source 1] = ([Source 1], Ok (Source 0))
  /\ removeSource (Source 5) [Source 0; Source 1]
     = ([Source 0; Source 1], Raise ValueError).
Proof.
  pose proof (removeSource_pops_or_removes [Source 0; Source 1])
    as [Hpop [Hrange [Hhuge [_ [_ [Hrem [Habsent _]]]]]]].
  split; [|split; [|split; [|split]]].
  - apply (Hpop [Source 0] (Source 1) [] (-1)%Z eq_refl eq_refl). right. reflexivity.
  - apply Hrange; [reflexivity|]. right. simpl. lia.
  - apply Hhuge. reflexivity.
  - apply (Hrem (Source 0) [] [Source 1] eq_refl eq_refl). intros [].
  - apply Habsent; [reflexivity|]. intros [H|[H|[]]]; discriminate H.
Defined.

(** The docstring's session: [c = Collection(s, s2, m)], then
    [c.removeSource(s)], [c.removeSource(s2)], [c.removeSource()]. *)
Example removeSource_docstring :
  removeSource (Source 0) [Source 0; Source 1; Source 2]
    = ([Source 1; Source 2], Ok (Source 0))
  /\ removeSource (Source 1) [Source 1; Source 2] = ([Source 2], Ok (Source 1))
  /\ removeSource_default [Source 2] = ([], Ok (Source 2))
  /\ removeSource_default [] = ([], Raise IndexError)
  /\ removeSource (PyInt (-3)) [Source 0; Source 1; Source 2]
     = ([Source 1; Source 2], Ok (Source 0))
  /\ removeSource (PyBool true) [Source 0] = ([Source 0], Raise AssertionError).
Proof. repeat split; reflexivity. Qed.

(** C10: the duplicate check is made only when [dupWarning] is the boolean
    True itself: with any other value, truthy ones included, a source
    argument is appended without a look at the members, by the constructor
    and by [addSources], so a reference already present then occurs once
    more. *)
Theorem duplicate_check_needs_exactly_True (dupWarning s : pyobj) :
  dupWarning <> PyBool true -> isSource s = true ->
  (forall l, addSources [s] dupWarning l = (l ++ [s], Ok tt))
  /\ (forall l, occurrences s (fst (addSources [s] dupWarning l))
                = S (occurrences s l))
  /\ (forall sources l, __init__ sources dupWarning = (l, Ok tt) ->
        __init__ (sources ++ [s]) dupWarning = (l ++ [s], Ok tt))
  /\ __init__ [s; s] dupWarning = ([s; s], Ok tt).
Proof.
  intros Hd Hs.
  assert (Ed : is_True dupWarning = false).
  { destruct dupWarning as [| | | |[]|]; try reflexivity. contradiction Hd. reflexivity. }
  assert (Hadd : forall l, addSources [s] dupWarning l = (l ++ [s], Ok tt)).
  { intros l. apply addSources_unchecked; [exact Ed|]. simpl. rewrite Hs. reflexivity. }
  split; [exact Hadd|]. split; [|split].
  - intros l. rewrite Hadd. simpl fst. apply occurrences_snoc. exact Hs.
  - intros sources l Hinit. unfold __init__ in *. rewrite for_each_app, Hinit.
    apply Hadd.
  - apply (addSources_unchecked dupWarning [s; s] [] Ed).
    simpl. rewrite Hs. reflexivity.
Qed.

Lemma duplicate_check_needs_exactly_True_witness :
  PyInt 1 <> PyBool true /\ isSource (Source 7) = true /\
  __init__ [Source 7; Source 7] (PyInt 1) = ([Source 7; Source 7], Ok tt).
Proof.
  assert (H1 : PyInt 1 <> PyBool true) by discriminate.
  assert (H2 : isSource (Source 7) = true) by reflexivity.
  split; [exact H1|]. split; [exact H2|].
  exact (proj2 (proj2 (proj2
           (duplicate_check_needs_exactly_True (PyInt 1) (Source 7) H1 H2)))).
Defined.

End RegistryFacts.


(** * Superposition: what [getB] and [getBsweep] return *)

Module FieldFacts.

Import Field PyFacts.

Section SuperpositionFacts.

Variable F : Type.
Variable fadd : F -> F -> F.
Variable of_int : Z -> F.
Variable Source : Type.
Variable Pos : Type.
Variable isPosVector : Pos -> bool.
Variable member_getB : Source -> Pos -> result (vec3 F).
Variable member_getBsweep :
  Source -> list Pos -> bool -> Z -> result (list (vec3 F)).

Local Abbreviation getB := (Field.getB fadd of_int member_getB).
Local Abbreviation getBsweep :=
  (Field.getBsweep fadd of_int isPosVector member_getBsweep).
Local Abbreviation vector_sum := (Field.vector_sum fadd of_int).
Local Abbreviation py_sum := (Field.py_sum fadd of_int).
Local Abbreviation value_add := (Field.value_add fadd of_int).
Local Abbreviation num_add := (Field.num_add fadd of_int).
Local Abbreviation add3 := (Field.add3 fadd).
Local Abbreviation zero_plus := (Field.zero_plus fadd of_int).
Local Abbreviation sum_over_sources := (Field.sum_over_sources fadd of_int).
Local Abbreviation zeros := (Field.zeros F).
Local Abbreviation agree := (Field.agree of_int).
Local Abbreviation acc_plus := (Field.acc_plus fadd of_int).

Lemma fold_value_add_arrays (bs : list (vec3 F)) (acc : vec3 F) :
  fold_left value_add (map Arr bs) (Arr acc) = Arr (fold_left add3 bs acc).
Proof.
  revert acc; induction bs as [|b bs IH]; intros acc; simpl; [reflexivity|].
  apply IH.
Qed.

Lemma py_sum_arrays (b : vec3 F) (bs : list (vec3 F)) :
  py_sum (Arr b :: map Arr bs) = Arr (vector_sum b bs).
Proof. unfold Field.py_sum. simpl. apply fold_value_add_arrays. Qed.

Lemma getB_members_return (sources : list Source) (pos : Pos)
  (contribution : Source -> vec3 F) :
  (forall m, In m sources -> member_getB m pos = Ok (contribution m)) ->
  getB sources pos = Ok (py_sum (map Arr (map contribution sources))).
Proof.
  intros H. unfold Field.getB.
  rewrite (mapM_all_Ok _ contribution sources H). reflexivity.
Qed.

(** C1 (amended): when every member of a collection of one or more sources
    returns its contribution at [pos], [getB] returns the array that is
    their component-wise sum, taken in member order from the int 0 that
    [sum] starts from: the first contribution is added to 0, the others to
    the sum so far. For a single member that is 0 + its contribution,
    component by component; whenever 0 + x = x for the three components of
    the first contribution, the result is the plain sum of the
    contributions. *)
Theorem getB_is_the_sum_of_the_members (s : Source) (others : list Source)
  (pos : Pos) (contribution : Source -> vec3 F) :
  (forall m, In m (s :: others) -> member_getB m pos = Ok (contribution m)) ->
  getB (s :: others) pos
  = Ok (Arr (vector_sum (contribution s) (map contribution others)))
  /\ (others = [] -> getB [s] pos = Ok (Arr (zero_plus (contribution s))))
  /\ (fadd (of_int 0) (vx (contribution s)) = vx (contribution s) ->
      fadd (of_int 0) (vy (contribution s)) = vy (contribution s) ->
      fadd (of_int 0) (vz (contribution s)) = vz (contribution s) ->
      getB (s :: others) pos
      = Ok (Arr (fold_left add3 (map contribution others) (contribution s)))).
Proof.
  intros H.
  assert (Hsum : getB (s :: others) pos
            = Ok (Arr (vector_sum (contribution s) (map contribution others)))).
  { rewrite (getB_members_return _ pos contribution H).
    simpl map. rewrite py_sum_arrays. reflexivity. }
  split; [exact Hsum|]. split.
  - intros ->. rewrite Hsum. reflexivity.
  - intros Hx Hy Hz. rewrite Hsum. unfold Field.vector_sum, Field.zero_plus.
    rewrite Hx, Hy, Hz. destruct (contribution s); reflexivity.
Qed.

(** C4 (the code differs): for an empty collection [getB] returns what
    [sum([])] is, the int 0, and no array. *)
Theorem getB_of_an_empty_collection_is_the_int_0 (pos : Pos) :
  getB [] pos = Ok (Num (NInt 0))
  /\ (forall b : vec3 F, getB [] pos <> Ok (Arr b)).
Proof.
  split; [reflexivity|]. intros b. unfold Field.getB. simpl. discriminate.
Qed.

Lemma sum_over_no_sources (calcFields : list (list (vec3 F))) (p : nat)
  (acc : vec3 (num F)) :
  sum_over_sources calcFields p [] acc = Ok acc.
Proof. reflexivity. Qed.

Lemma mapM_constant {A B} (c : B) (xs : list A) :
  mapM (fun _ => Ok c) xs = Ok (repeat c (length xs)).
Proof.
  induction xs as [|x xs IH]; simpl; [reflexivity|]. rewrite IH. reflexivity.
Qed.

(** C9: for an empty collection and valid query points, [getBsweep] returns
    one row [[0, 0, 0]] per point. *)
Theorem getBsweep_of_an_empty_collection_is_zero_rows (pos : list Pos)
  (multiprocessing : bool) (processes : Z) :
  forallb isPosVector pos = true ->
  getBsweep [] pos multiprocessing processes = Ok (repeat zeros (length pos))
  /\ forall rows, getBsweep [] pos multiprocessing processes = Ok rows ->
       length rows = length pos /\ forall row, In row rows -> row = zeros.
Proof.
  intros Hp.
  assert (H : getBsweep [] pos multiprocessing processes
              = Ok (repeat zeros (length pos))).
  { unfold Field.getBsweep. rewrite Hp.
    change (mapM (fun _ : nat => Ok zeros) (seq 0 (length pos))
            = Ok (repeat zeros (length pos))).
    rewrite mapM_constant, length_seq. reflexivity. }
  split; [exact H|]. intros rows Hr. rewrite H in Hr. injection Hr as <-.
  split; [apply repeat_length|]. intros row Hin. eapply repeat_spec. exact Hin.
Qed.

Lemma sum_over_sources_range (calcFields : list (list (vec3 F))) (p : nat) :
  (forall rows, In rows calcFields -> (p < length rows)%nat) ->
  forall (done : list (list (vec3 F))) (acc : vec3 (num F)),
    sum_over_sources (done ++ calcFields) p
      (seq (length done) (length calcFields)) acc
    = Ok (fold_left acc_plus (column calcFields p) acc).
Proof.
  induction calcFields as [|rows calc IH]; intros Hlen done acc; [reflexivity|].
  cbn [length seq Field.sum_over_sources].
  rewrite nth_error_app2 by lia. rewrite Nat.sub_diag. cbn [nth_error].
  destruct (nth_error rows p) as [b|] eqn:Eb.
  - specialize (IH (fun r Hr => Hlen r (or_intror Hr)) (done ++ [rows])
                  (acc_plus acc b)).
    rewrite <- app_assoc, length_app in IH. simpl in IH.
    replace (length done + 1)%nat with (S (length done)) in IH by lia.
    unfold column. cbn [flat_map]. rewrite Eb. simpl app.
    cbn [fold_left]. exact IH.
  - apply nth_error_None in Eb. specialize (Hlen rows (or_introl eq_refl)). lia.
Qed.

Lemma fold_acc_plus_floats (bs : list (vec3 F)) (a : vec3 F) :
  fold_left acc_plus bs (floats_of a) = floats_of (fold_left add3 bs a).
Proof.
  revert a; induction bs as [|b bs IH]; intros a; simpl; [reflexivity|].
  apply (IH (add3 a b)).
Qed.

Lemma point_sum_nonempty (b : vec3 F) (bs : list (vec3 F)) :
  fold_left acc_plus (b :: bs) zeros = floats_of (vector_sum b bs).
Proof. simpl. apply (fold_acc_plus_floats bs (zero_plus b)). Qed.

Lemma mapM_map_in {A B} (f : A -> result B) (g : A -> B) (xs : list A) :
  (forall x, In x xs -> f x = Ok (g x)) -> mapM f xs = Ok (map g xs).
Proof. apply mapM_all_Ok. Qed.

(** [getBsweep] returns one row per point, in the order of the points: row
    number [p] is the sum, in member order from the int 0, of the members'
    batch contributions at point number [p]. *)
Lemma getBsweep_sums_each_point (sources : list Source) (pos : list Pos)
  (multiprocessing : bool) (processes : Z) (batch : Source -> list (vec3 F)) :
  forallb isPosVector pos = true ->
  (forall m, In m sources ->
     member_getBsweep m pos multiprocessing processes = Ok (batch m)
     /\ length (batch m) = length pos) ->
  getBsweep sources pos multiprocessing processes
  = Ok (map (fun p => fold_left acc_plus (column (map batch sources) p) zeros)
          (seq 0 (length pos))).
Proof.
  intros Hp Hm. unfold Field.getBsweep. rewrite Hp.
  rewrite (mapM_all_Ok _ batch sources (fun m H => proj1 (Hm m H))).
  cbn [rbind]. apply mapM_all_Ok. intros p Hin. apply in_seq in Hin.
  pose proof (sum_over_sources_range (map batch sources) p) as H.
  rewrite length_map in H. apply (H ltac:(
    intros rows Hr; apply in_map_iff in Hr; destruct Hr as [m [<- Hmem]];
    rewrite (proj2 (Hm m Hmem)); lia) [] zeros).
Qed.

Lemma column_of_batches (sources : list Source) (batch : Source -> list (vec3 F))
  (p : nat) (at_p : Source -> vec3 F) :
  (forall m, In m sources -> nth_error (batch m) p = Some (at_p m)) ->
  column (map batch sources) p = map at_p sources.
Proof.
  induction sources as [|m ms IH]; intros H; [reflexivity|].
  unfold column in *. simpl. rewrite (H m (or_introl eq_refl)). simpl.
  f_equal. apply IH. intros m' Hm'. apply H. right. exact Hm'.
Qed.

(** For a collection with at least one member whose batch contribution at
    each point is its single-point contribution there, row number [p] of
    [getBsweep] agrees with [getB] at point number [p]. *)
Lemma getBsweep_agrees_with_getB (s : Source) (others : list Source)
  (pos : list Pos) (multiprocessing : bool) (processes : Z)
  (batch : Source -> list (vec3 F)) (single : Source -> Pos -> vec3 F) :
  forallb isPosVector pos = true ->
  (forall m, In m (s :: others) ->
     member_getBsweep m pos multiprocessing processes = Ok (batch m)
     /\ length (batch m) = length pos) ->
  (forall m p P, In m (s :: others) -> nth_error pos p = Some P ->
     member_getB m P = Ok (single m P)
     /\ nth_error (batch m) p = Some (single m P)) ->
  exists rows,
    getBsweep (s :: others) pos multiprocessing processes = Ok rows
    /\ length rows = length pos
    /\ forall p P, nth_error pos p = Some P ->
         exists row v, nth_error rows p = Some row
                       /\ getB (s :: others) P = Ok v /\ agree row v.
Proof.
  intros Hp Hb Hc. eexists. split; [apply (getBsweep_sums_each_point _ _ _ _ batch Hp Hb)|].
  split; [rewrite length_map, length_seq; reflexivity|].
  intros p P HP.
  assert (Hlt : (p < length pos)%nat) by (apply nth_error_Some; congruence).
  exists (floats_of (vector_sum (single s P) (map (fun m => single m P) others))).
  exists (Arr (vector_sum (single s P) (map (fun m => single m P) others))).
  split; [|split].
  - rewrite nth_error_map, nth_error_seq.
    replace (p <? length pos)%nat with true by (symmetry; apply Nat.ltb_lt; exact Hlt).
    cbn [option_map]. f_equal. cbn [Nat.add].
    rewrite (column_of_batches (s :: others) batch p (fun m => single m P))
      by (intros m Hm; apply (Hc m p P Hm HP)).
    simpl map. apply point_sum_nonempty.
  - rewrite (getB_members_return _ P (fun m => single m P))
      by (intros m Hm; apply (Hc m p P Hm HP)).
    simpl map. rewrite py_sum_arrays. reflexivity.
  - simpl. repeat split; reflexivity.
Qed.

(** C3 (the code differs, by the defect of C4): for the empty collection
    and one valid point, [getBsweep] returns the row [[0, 0, 0]] while
    [getB] at that point returns the int 0, which is no vector and not
    equal to the row. *)
Theorem getBsweep_row_differs_from_getB_when_empty (P : Pos)
  (multiprocessing : bool) (processes : Z) :
  isPosVector P = true ->
  getBsweep [] [P] multiprocessing processes = Ok [zeros]
  /\ getB [] P = Ok (Num (NInt 0))
  /\ ~ agree zeros (Num (NInt 0)).
Proof.
  intros HP. split; [|split].
  - unfold Field.getBsweep. simpl forallb. rewrite HP. reflexivity.
  - reflexivity.
  - simpl. intros [].
Qed.

(** C8: a member whose field evaluation raises makes the whole query raise
    that exception, for [getBsweep] and for [getB]; and a query that
    returns had every member return and, for a sweep, holds one row per
    point. *)
Theorem failing_member_fails_the_whole_query (before : list Source) (s : Source)
  (after : list Source) (e : exn) :
  (forall pos multiprocessing processes,
      forallb isPosVector pos = true ->
      (forall m, In m before ->
         exists rows, member_getBsweep m pos multiprocessing processes = Ok rows) ->
      member_getBsweep s pos multiprocessing processes = Raise e ->
      getBsweep (before ++ s :: after) pos multiprocessing processes = Raise e)
  /\ (forall pos,
        (forall m, In m before -> exists b, member_getB m pos = Ok b) ->
        member_getB s pos = Raise e ->
        getB (before ++ s :: after) pos = Raise e)
  /\ (forall sources pos multiprocessing processes rows,
        getBsweep sources pos multiprocessing processes = Ok rows ->
        length rows = length pos
        /\ forall m, In m sources ->
             exists r, member_getBsweep m pos multiprocessing processes = Ok r)
  /\ (forall sources pos v,
        getB sources pos = Ok v ->
        forall m, In m sources -> exists b, member_getB m pos = Ok b).
Proof.
  split; [|split; [|split]].
  - intros pos mp procs Hp Hb Hs. unfold Field.getBsweep. rewrite Hp.
    rewrite (mapM_first_Raise _ before s after e Hb Hs). reflexivity.
  - intros pos Hb Hs. unfold Field.getB.
    rewrite (mapM_first_Raise _ before s after e Hb Hs). reflexivity.
  - intros sources pos mp procs rows. unfold Field.getBsweep.
    destruct (forallb isPosVector pos); [|discriminate].
    destruct (mapM (fun s0 => member_getBsweep s0 pos mp procs) sources)
      as [calc|e'] eqn:Ec; [|discriminate].
    cbn [rbind]. intros Hr. split.
    + rewrite (mapM_Ok_length _ _ _ Hr). apply length_seq.
    + intros m Hm. destruct (mapM_Ok_inv _ _ _ Ec m Hm) as [r [Hr' _]].
      exists r. exact Hr'.
  - intros sources pos v. unfold Field.getB.
    destruct (mapM (fun s0 => member_getB s0 pos) sources) as [bs|e'] eqn:Eb;
      [|discriminate].
    intros _ m Hm. destruct (mapM_Ok_inv _ _ _ Eb m Hm) as [b [Hb _]].
    exists b. exact Hb.
Qed.

End SuperpositionFacts.

(** C1, as the specification states it, fails on binary64 floats: for a
    collection of one member whose contribution has the component -0.0,
    [getB] returns 0 + (-0.0) = +0.0 there, not the contribution as it
    was. *)
Lemma getB_of_one_member_loses_the_sign_of_zero :
  ~ (forall b : vec3 PrimFloat.float,
        Field.getB PrimFloat.add float_of_int (constant_getB b) [tt] tt
        = Ok (Arr b)).
Proof.
  intros H.
  specialize (H (mkVec3 PrimFloat.neg_zero PrimFloat.one PrimFloat.two)).
  apply (f_equal (fun r => match r with
                           | Ok (Arr b) => PrimFloat.classify (vx b)
                           | _ => FloatClass.NaN
                           end)) in H.
  vm_compute in H. discriminate H.
Qed.

Lemma getB_is_the_sum_of_the_members_witness :
  (forall m, In m [tt; tt] ->
     constant_getB (mkVec3 PrimFloat.neg_zero PrimFloat.one PrimFloat.two) m tt
     = Ok (mkVec3 PrimFloat.neg_zero PrimFloat.one PrimFloat.two))
  /\ Field.getB PrimFloat.add float_of_int
       (constant_getB (mkVec3 PrimFloat.neg_zero PrimFloat.one PrimFloat.two))
       [tt; tt] tt
     = Ok (Arr (mkVec3 PrimFloat.zero PrimFloat.two
               (PrimFloat.add PrimFloat.two PrimFloat.two))).
Proof.
  assert (H : forall m, In m [tt; tt] ->
     constant_getB (mkVec3 PrimFloat.neg_zero PrimFloat.one PrimFloat.two) m tt
     = Ok (mkVec3 PrimFloat.neg_zero PrimFloat.one PrimFloat.two))
    by (intros m _; reflexivity).
  split; [exact H|].
  exact (proj1 (getB_is_the_sum_of_the_members PrimFloat.float PrimFloat.add
                  float_of_int unit unit
                  (constant_getB
                     (mkVec3 PrimFloat.neg_zero PrimFloat.one PrimFloat.two))
                  tt [tt] tt
                  (fun _ => mkVec3 PrimFloat.neg_zero PrimFloat.one PrimFloat.two)
                  H)).
Defined.

Lemma getBsweep_of_an_empty_collection_is_zero_rows_witness :
  forallb (fun _ : Z => true) [1; 2; 3]%Z = true
  /\ Field.getBsweep Z.add (fun n => n) (fun _ : Z => true) toy_getBsweep
       [] [1; 2; 3]%Z false 0
     = Ok [zeros Z; zeros Z; zeros Z].
Proof.
  assert (H : forallb (fun _ : Z => true) [1; 2; 3]%Z = true) by reflexivity.
  split; [exact H|].
  exact (proj1 (getBsweep_of_an_empty_collection_is_zero_rows Z Z.add
                  (fun n => n) nat Z (fun _ => true) toy_getBsweep
                  [1; 2; 3]%Z false 0%Z H)).
Defined.

Lemma getBsweep_row_differs_from_getB_when_empty_witness :
  (fun _ : Z => true) 4%Z = true
  /\ Field.getBsweep Z.add (fun n => n) (fun _ : Z => true) toy_getBsweep
       [] [4%Z] false 0
     = Ok [zeros Z]
  /\ Field.getB Z.add (fun n => n) toy_getB [] 4%Z = Ok (Num (NInt 0)).
Proof.
  assert (H : (fun _ : Z => true) 4%Z = true) by reflexivity.
  split; [exact H|].
  pose proof (getBsweep_row_differs_from_getB_when_empty Z Z.add (fun n => n)
                nat Z (fun _ => true) toy_getB toy_getBsweep 4%Z false 0%Z H)
    as [H1 [H2 _]].
  split; [exact H1 | exact H2].
Defined.

Lemma failing_member_fails_the_whole_query_witness :
  Field.getBsweep Z.add (fun n => n) (fun _ : Z => true) toy_getBsweep
    [1; 9; 2]%nat [4; 5]%Z false 0 = Raise (MemberError 9)
  /\ Field.getB Z.add (fun n => n) toy_getB [1; 9; 2]%nat 4%Z
     = Raise (MemberError 9).
Proof.
  pose proof (failing_member_fails_the_whole_query Z Z.add (fun n => n) nat Z
                (fun _ => true) toy_getB toy_getBsweep [1%nat] 9%nat [2%nat]
                (MemberError 9)) as [Hsweep [Hone _]].
  split.
  - apply (Hsweep [4; 5]%Z false 0%Z eq_refl).
    + intros m [<-|[]]. eexists. reflexivity.
    + reflexivity.
  - apply (Hone 4%Z).
    + intros m [<-|[]]. eexists. reflexivity.
    + reflexivity.
Defined.

(** With an integer-valued member the two queries can be run: a sweep over
    two points for the members 1 and 2. *)
Example getBsweep_runs :
  Field.getBsweep Z.add (fun n => n) (fun _ : Z => true) toy_getBsweep
    [1; 2]%nat [5; 7]%Z false 0
  = Ok [floats_of (mkVec3 3 10 13)%Z; floats_of (mkVec3 3 14 17)%Z].
Proof. reflexivity. Qed.

End FieldFacts.


(** * The broadcast: what [rotate] does to the members *)

Module TransformFacts.

Import Registry Field Transform PyFacts RegistryFacts.
Local Open Scope R_scope.

Lemma rodrigues_origin (angleDegrees : R) (k : vec) :
  rodrigues angleDegrees k (mkVec3 0 0 0) = mkVec3 0 0 0.
Proof.
  unfold rodrigues, vadd, vscale, cross, dot. simpl. f_equal; ring.
Qed.

(** A point rotated about itself stays where it is. *)
Lemma rotated_about_itself (angleDegrees : R) (ax p : vec) :
  rotated angleDegrees ax p p = p.
Proof.
  unfold rotated. destruct (Req_dec_T angleDegrees 0); [reflexivity|].
  replace (vsub p p) with (mkVec3 0 0 0 : vec)
    by (unfold vsub; f_equal; ring).
  rewrite rodrigues_origin. destruct p. unfold vadd. simpl. f_equal; ring.
Qed.

Lemma dot_self_nonneg (a : vec) : 0 <= dot a a.
Proof. unfold dot. nra. Qed.

Lemma unit_axis (ax : vec) :
  norm ax <> 0 -> dot (vscale (/ norm ax) ax) (vscale (/ norm ax) ax) = 1.
Proof.
  intros Hn. pose proof (sqrt_sqrt (dot ax ax) (dot_self_nonneg ax)) as Hs.
  fold (norm ax) in Hs.
  transitivity (/ norm ax * / norm ax * dot ax ax);
    [unfold dot, vscale; simpl; ring|].
  rewrite <- Hs. field. exact Hn.
Qed.

(** The rotation about a unit axis keeps the length of a vector. *)
Lemma rodrigues_keeps_length (angleDegrees : R) (k v : vec) :
  dot k k = 1 ->
  dot (rodrigues angleDegrees k v) (rodrigues angleDegrees k v) = dot v v.
Proof.
  intros Hk. unfold rodrigues.
  pose proof (sin2_cos2 (angleDegrees * PI / 180)) as Hcs.
  unfold Rsqr in Hcs.
  set (c := cos (angleDegrees * PI / 180)) in *.
  set (s := sin (angleDegrees * PI / 180)) in *.
  destruct k as [kx ky kz], v as [x y z].
  unfold dot, vadd, vscale, cross in *. simpl in *. nsatz.
Qed.

(** Orbiting: a rotation about the point [P] keeps the distance to [P]. *)
Lemma rotated_keeps_distance (angleDegrees : R) (ax P v : vec) :
  norm ax <> 0 -> dist2 (rotated angleDegrees ax P v) P = dist2 v P.
Proof.
  intros Hn. unfold rotated. destruct (Req_dec_T angleDegrees 0); [reflexivity|].
  unfold dist2.
  set (r := rodrigues angleDegrees (vscale (/ norm ax) ax) (vsub v P)).
  replace (vsub (vadd r P) P) with r
    by (destruct r, P; unfold vsub, vadd; simpl; f_equal; ring).
  apply rodrigues_keeps_length. apply unit_axis. exact Hn.
Qed.

Lemma norm_y_axis : norm (mkVec3 0 1 0) = 1.
Proof.
  unfold norm, dot. simpl.
  replace (0 * 0 + 1 * 1 + 0 * 0) with 1 by ring. apply sqrt_1.
Qed.

(** The docstring of [rotate]: a source at the origin, rotated by 90 degrees
    about the y axis through the anchor (1, 0, 0), ends at (1, 0, 1). *)
Lemma rotate_docstring_position :
  rotateVector (mkVec3 0 0 0) 90 (mkVec3 0 1 0) (mkVec3 1 0 0)
  = Ok (mkVec3 1 0 1).
Proof.
  unfold rotateVector. rewrite norm_y_axis.
  destruct (Req_dec_T 1 0) as [H|_]; [lra|].
  unfold rotated. destruct (Req_dec_T 90 0) as [H|_]; [lra|].
  rewrite norm_y_axis. unfold rodrigues.
  replace (90 * PI / 180) with (PI / 2) by field.
  rewrite cos_PI2, sin_PI2.
  unfold vadd, vscale, vsub, cross, dot. simpl. f_equal. f_equal; field.
Qed.

Section BroadcastFacts.

Variable composeOrientation : R -> vec -> R -> vec -> R * vec.

Local Abbreviation rotate := (Transform.rotate composeOrientation).
Local Abbreviation rotate_step := (Transform.rotate_step composeOrientation).
Local Abbreviation Source_rotate := (Transform.Source_rotate composeOrientation).
Local Abbreviation turned := (Transform.turned composeOrientation).

(** A method that always returns, called on every member in turn: each
    source is updated once for each time it occurs in the member list. *)
Lemma broadcast_returns (method : SourceState -> result SourceState)
  (f : SourceState -> SourceState) :
  (forall s, method s = Ok (f s)) ->
  forall (members : list pyobj) (w : World SourceState),
    forallb isSource members = true ->
    snd (for_each (call_on method) members w) = Ok tt
    /\ self_sources _ (fst (for_each (call_on method) members w))
       = self_sources _ w
    /\ forall id,
         store _ (fst (for_each (call_on method) members w)) id
         = Nat.iter (occurrences (Source id) members) f (store _ w id).
Proof.
  intros Hf. induction members as [|o rest IH]; intros w Hm.
  - simpl. repeat split.
  - simpl in Hm. apply andb_true_iff in Hm. destruct Hm as [Ho Hrest].
    destruct o as [i| | | | |]; try discriminate.
    cbn [for_each]. unfold bind. cbn [call_on]. rewrite Hf.
    set (w1 := mkWorld SourceState
                 (set_source (store _ w) i (f (store _ w i))) (self_sources _ w)).
    destruct (IH w1 Hrest) as [H1 [H2 H3]].
    split; [exact H1|]. split; [exact H2|].
    intros id. rewrite H3. unfold occurrences. cbn [filter same_source].
    unfold w1. simpl store. unfold set_source.
    rewrite (Nat.eqb_sym id i).
    destruct (Nat.eqb i id) eqn:E.
    + apply Nat.eqb_eq in E. subst i. cbn [length].
      rewrite Nat.iter_succ_r. reflexivity.
    + reflexivity.
Qed.

Lemma Source_rotate_returns (angleDegrees : R) (ax : vec) (anchor : anchor_arg)
  (s : SourceState) :
  norm ax <> 0 ->
  Source_rotate angleDegrees ax anchor s
  = Ok (rotate_step angleDegrees ax anchor s).
Proof.
  intros Hn. unfold Transform.Source_rotate, rotateVector.
  destruct (Req_dec_T (norm ax) 0) as [H|_]; [contradiction|]. reflexivity.
Qed.

Lemma Source_rotate_degenerate (angleDegrees : R) (ax : vec) (anchor : anchor_arg)
  (s : SourceState) :
  norm ax = 0 ->
  Source_rotate angleDegrees ax anchor s = Raise DegenerateAxisError.
Proof.
  intros Hn. unfold Transform.Source_rotate, rotateVector.
  destruct (Req_dec_T (norm ax) 0) as [_|H]; [reflexivity | contradiction].
Qed.

Lemma iter_orientation (angleDegrees : R) (ax : vec) (anchor : anchor_arg)
  (n : nat) (s : SourceState) :
  orientation (Nat.iter n (rotate_step angleDegrees ax anchor) s)
  = Nat.iter n (turned angleDegrees ax) (orientation s).
Proof.
  induction n as [|n IH]; [reflexivity|]. cbn [Nat.iter nat_rect].
  change (Nat.iter n ?g ?x) with (nat_rect _ x (fun _ => g) n) in IH.
  rewrite <- IH. unfold Transform.rotate_step, orientation. simpl.
  destruct (Transform.turned _ _ _ _). reflexivity.
Qed.

Lemma iter_position_self (angleDegrees : R) (ax : vec) (n : nat)
  (s : SourceState) :
  position (Nat.iter n (rotate_step angleDegrees ax SelfPosition) s)
  = position s.
Proof.
  induction n as [|n IH]; [reflexivity|]. cbn [Nat.iter nat_rect].
  change (Nat.iter n ?g ?x) with (nat_rect _ x (fun _ => g) n) in IH.
  unfold Transform.rotate_step at 1. simpl position.
  rewrite rotated_about_itself. exact IH.
Qed.

Lemma iter_position_anchor (angleDegrees : R) (ax P : vec) (n : nat)
  (s : SourceState) :
  position (Nat.iter n (rotate_step angleDegrees ax (AnchorAt P)) s)
  = Nat.iter n (rotated angleDegrees ax P) (position s).
Proof.
  induction n as [|n IH]; [reflexivity|]. cbn [Nat.iter nat_rect].
  change (Nat.iter n ?g ?x) with (nat_rect _ x (fun _ => g) n) in IH.
  unfold Transform.rotate_step at 1. simpl position. simpl pivot_of.
  rewrite IH. reflexivity.
Qed.

Lemma iter_rotated_keeps_distance (angleDegrees : R) (ax P : vec) (n : nat)
  (p : vec) :
  norm ax <> 0 ->
  dist2 (Nat.iter n (rotated angleDegrees ax P) p) P = dist2 p P.
Proof.
  intros Hn. induction n as [|n IH]; [reflexivity|]. cbn [Nat.iter nat_rect].
  change (Nat.iter n ?g ?x) with (nat_rect _ x (fun _ => g) n) in IH.
  rewrite rotated_keeps_distance by exact Hn. exact IH.
Qed.

Lemma rodrigues_no_turn (k v : vec) : rodrigues 0 k v = v.
Proof.
  unfold rodrigues. replace (0 * PI / 180) with 0 by field.
  rewrite cos_0, sin_0. destruct k, v. unfold vadd, vscale, cross, dot. simpl.
  f_equal; ring.
Qed.

(** Turning back: the rotation by the opposite angle about the same unit
    axis undoes a rotation. *)
Lemma rodrigues_back (angleDegrees : R) (k u : vec) :
  dot k k = 1 ->
  rodrigues angleDegrees k (rodrigues (- angleDegrees) k u) = u.
Proof.
  intros Hk. unfold rodrigues.
  replace (- angleDegrees * PI / 180) with (- (angleDegrees * PI / 180)) by field.
  rewrite cos_neg, sin_neg.
  pose proof (sin2_cos2 (angleDegrees * PI / 180)) as Hcs. unfold Rsqr in Hcs.
  set (c := cos (angleDegrees * PI / 180)) in *.
  set (s := sin (angleDegrees * PI / 180)) in *.
  destruct k as [kx ky kz], u as [x y z].
  unfold dot, vadd, vscale, cross in *. simpl in *. f_equal; nsatz.
Qed.

(** An orientation composed with a rotation that moves some vector is
    another orientation. *)
Lemma composed_orientation_differs (o o' : R * vec) (angleDegrees : R) (ax : vec) :
  norm (snd o) <> 0 ->
  (forall v, acts o' v = acts (angleDegrees, ax) (acts o v)) ->
  (exists u, acts (angleDegrees, ax) u <> u) ->
  o' <> o.
Proof.
  intros Hn Hlaw [u Hu] ->. apply Hu.
  pose proof (rodrigues_back (fst o) (vscale (/ norm (snd o)) (snd o)) u
                (unit_axis (snd o) Hn)) as Hback.
  specialize (Hlaw (rodrigues (- fst o) (vscale (/ norm (snd o)) (snd o)) u)).
  unfold acts at 1 3 in Hlaw. rewrite Hback in Hlaw. symmetry. exact Hlaw.
Qed.

(** The rotation about [P] moves a point exactly when the rotation moves
    the vector from [P] to the point. *)
Lemma rotated_moves_iff (angleDegrees : R) (ax P p : vec) :
  rotated angleDegrees ax P p <> p
  <-> acts (angleDegrees, ax) (vsub p P) <> vsub p P.
Proof.
  unfold rotated, acts. cbn [fst snd].
  destruct (Req_dec_T angleDegrees 0) as [->|Ha].
  - rewrite rodrigues_no_turn. split; intros H; contradiction H; reflexivity.
  - set (r := rodrigues angleDegrees (vscale (/ norm ax) ax) (vsub p P)).
    assert (Heq : vadd r P = p <-> r = vsub p P).
    { destruct r as [rx ry rz], P as [a b c], p as [x y z].
      unfold vadd, vsub. simpl. split; intros [= H1 H2 H3]; f_equal; lra. }
    rewrite Heq. reflexivity.
Qed.


End BroadcastFacts.

(** A rotation about an explicit anchor that is the member's own position
    leaves that member's position unchanged, whatever the orientation
    does. *)
Lemma rotate_about_a_members_own_position_keeps_it :
  ~ (exists composeOrientation,
        rotate_as_stated composeOrientation (lone_source_at (mkVec3 1 0 0))
          90 (mkVec3 0 1 0) (mkVec3 1 0 0)).
Proof.
  intros [compose H]. destruct (H 0%nat (or_introl eq_refl)) as [_ [_ [Hmoved _]]].
  apply Hmoved. clear H Hmoved.
  unfold Transform.rotate, lone_source_at. cbn [self_sources for_each].
  unfold bind. cbn [call_on store].
  rewrite Source_rotate_returns by (rewrite norm_y_axis; lra).
  cbn [fst store]. unfold set_source. cbn [Nat.eqb].
  unfold Transform.rotate_step. cbn [position pivot_of].
  apply rotated_about_itself.
Qed.

Lemma norm_z_axis : norm (mkVec3 0 0 1) = 1.
Proof.
  unfold norm, dot. simpl.
  replace (0 * 0 + 0 * 0 + 1 * 1) with 1 by ring. apply sqrt_1.
Qed.

(** The quarter turn about the y axis takes (x, y, z) to (z, y, -x). *)
Lemma quarter_turn_about_y (v : vec) :
  acts (90, mkVec3 0 1 0) v = mkVec3 (vz v) (vy v) (- vx v).
Proof.
  unfold acts. cbn [fst snd]. rewrite norm_y_axis. unfold rodrigues.
  replace (90 * PI / 180) with (PI / 2) by field.
  rewrite cos_PI2, sin_PI2. destruct v.
  unfold vadd, vscale, cross, dot. simpl. f_equal; field.
Qed.

(** A member that was never rotated (angle 0) takes the incoming rotation as
    its orientation, and a rotation by the angle 0 leaves an orientation as
    it is: both are rigid in the sense of the spec. *)
Lemma unrotated_members_take_the_incoming_rotation (p : vec) (angleDegrees : R)
  (ax : vec) :
  rigid (fun _ _ b y => (b, y)) (lone_source_at p) angleDegrees ax.
Proof.
  intros id _. unfold lone_source_at. cbn [store axis orientation angle].
  split; [rewrite norm_z_axis; lra|].
  intros v. unfold Transform.turned. cbn [fst snd].
  unfold acts at 3. cbn [fst snd]. rewrite rodrigues_no_turn. reflexivity.
Qed.

Lemma no_turn_keeps_the_orientation (p ax : vec) :
  rigid (fun a x _ _ => (a, x)) (lone_source_at p) 0 ax.
Proof.
  intros id _. unfold lone_source_at. cbn [store axis orientation angle].
  split; [rewrite norm_z_axis; lra|].
  intros v. unfold Transform.turned. cbn [fst snd].
  unfold acts at 2. cbn [fst snd]. rewrite rodrigues_no_turn. reflexivity.
Qed.


(** The docstring of [rotate]: an unrotated source at the origin, after
    [col.rotate(90, [0,1,0], anchor=[1,0,0])], is at (1, 0, 1) with the
    angle 90 and the axis (0, 1, 0). *)
Lemma rotate_docstring :
  let w' := fst (Transform.rotate (fun _ _ b y => (b, y)) 90 (mkVec3 0 1 0)
                   (AnchorAt (mkVec3 1 0 0)) (lone_source_at (mkVec3 0 0 0))) in
  position (store _ w' 0%nat) = mkVec3 1 0 1
  /\ angle (store _ w' 0%nat) = 90
  /\ axis (store _ w' 0%nat) = mkVec3 0 1 0.
Proof.
  unfold Transform.rotate, lone_source_at. cbn [self_sources for_each].
  unfold bind. cbn [call_on store].
  unfold Transform.Source_rotate. cbn [position pivot_of].
  rewrite rotate_docstring_position. cbn [rbind fst store].
  unfold set_source. cbn [Nat.eqb position angle axis].
  repeat split.
Qed.


End TransformFacts.


(** * More about the registry: what a removal leaves, adding in steps *)

Module RegistryMore.

Import Registry PyFacts RegistryFacts.

(** X1: a [removeSource] that returns gives back one member and leaves the
    others in their order, so the old member list is the new one with the
    returned entry put back at its place; a [removeSource] that raises
    leaves the member list as it was, and what it raises is decided by the
    argument: for an int IndexError, or OverflowError when the int does not
    fit a machine index; ValueError for a source; AssertionError for
    anything else. *)
Theorem removeSource_takes_one_member_or_nothing (source_ref : pyobj)
  (l : list pyobj) :
  match snd (removeSource source_ref l) with
  | Ok x =>
      (exists l1 l2, l = l1 ++ x :: l2
                     /\ fst (removeSource source_ref l) = l1 ++ l2)
      /\ In x l
      /\ Permutation l (x :: fst (removeSource source_ref l))
      /\ S (length (fst (removeSource source_ref l))) = length l
  | Raise e =>
      fst (removeSource source_ref l) = l
      /\ e = match source_ref with
             | PyInt i => if fits_ssize_t i then IndexError else OverflowError
             | Source _ => ValueError
             | _ => AssertionError
             end
  end.
Proof.
  assert (Hshape : forall x l1 l2, l = l1 ++ x :: l2 ->
            (exists l1' l2', l = l1' ++ x :: l2' /\ l1 ++ l2 = l1' ++ l2')
            /\ In x l /\ Permutation l (x :: l1 ++ l2)
            /\ S (length (l1 ++ l2)) = length l).
  { intros x l1 l2 ->. split; [exists l1, l2; split; reflexivity|].
    split; [apply in_elt|]. split.
    - symmetry. apply Permutation_middle.
    - rewrite !length_app. simpl. lia. }
  destruct source_ref; simpl; try (split; reflexivity).
  - unfold bind. simpl.
    destruct (list_remove (Source id) l) as [rest|] eqn:E; simpl.
    + destruct (list_remove_Some (Source id) l rest eq_refl E)
        as [l1 [l2 [H1 [H2 _]]]].
      subst rest. apply Hshape. exact H1.
    + split; reflexivity.
  - destruct (list_pop l n) as [[x rest]|e] eqn:E.
    + simpl. destruct (list_pop_Some l n x rest E) as [l1 [l2 [H1 [H2 _]]]].
      subst rest. apply Hshape. exact H1.
    + pose proof (proj2 (proj2 (list_pop_Raise l n)) e E) as He.
      destruct e; simpl; (split; [reflexivity | exact He]).
Qed.



(** X3: an argument that is no source, no Collection and no list or tuple
    makes [addSources] and the constructor raise AssertionError at that
    argument: the arguments before it have been added and stay, those after
    it are never looked at. *)
Theorem addSources_stops_at_an_invalid_argument (dupWarning bad : pyobj)
  (before after l : list pyobj) :
  isSource bad = false ->
  (forall xs, bad <> Collection xs) -> (forall xs, bad <> Sequence xs) ->
  snd (addSources before dupWarning l) = Ok tt ->
  addSources (before ++ bad :: after) dupWarning l
  = (fst (addSources before dupWarning l), Raise AssertionError).
Proof.
  intros Hs Hc Hq Hb. unfold addSources in *. rewrite for_each_app.
  destruct (for_each (add_argument dupWarning) before l) as [l1 r].
  simpl in Hb. subst r. cbn [for_each]. unfold bind.
  destruct bad; try discriminate;
    try (exfalso; eapply Hc; reflexivity);
    try (exfalso; eapply Hq; reflexivity);
    reflexivity.
Qed.

Lemma addSources_stops_at_an_invalid_argument_witness :
  isSource PyNone = false
  /\ (forall xs, PyNone <> Collection xs) /\ (forall xs, PyNone <> Sequence xs)
  /\ snd (addSources [Source 1] (PyInt 0) []) = Ok tt
  /\ __init__ [Source 1; PyNone; Source 2] (PyInt 0)
     = ([Source 1], Raise AssertionError).
Proof.
  assert (H1 : isSource PyNone = false) by reflexivity.
  assert (H2 : forall xs, PyNone <> Collection xs) by (intros xs; discriminate).
  assert (H3 : forall xs, PyNone <> Sequence xs) by (intros xs; discriminate).
  assert (H4 : snd (addSources [Source 1] (PyInt 0) []) = Ok tt) by reflexivity.
  split; [exact H1|]. split; [exact H2|]. split; [exact H3|]. split; [exact H4|].
  exact (addSources_stops_at_an_invalid_argument (PyInt 0) PyNone [Source 1]
           [Source 2] [] H1 H2 H3 H4).
Defined.

(** X4: adding in two calls is adding in one: when the first arguments are
    taken without an exception, [addSources(xs..., ys...)] leaves what
    [addSources(xs...)] followed by [addSources(ys...)] leaves, and a
    collection constructed from [xs] and extended by [ys] has the members of
    the collection constructed from both; when the first arguments raise,
    the later ones change nothing. *)
Theorem addSources_in_two_calls (dupWarning : pyobj) (xs ys l : list pyobj) :
  (snd (addSources xs dupWarning l) = Ok tt ->
   addSources (xs ++ ys) dupWarning l
   = addSources ys dupWarning (fst (addSources xs dupWarning l)))
  /\ (snd (__init__ xs dupWarning) = Ok tt ->
      __init__ (xs ++ ys) dupWarning
      = addSources ys dupWarning (fst (__init__ xs dupWarning)))
  /\ (forall e, snd (addSources xs dupWarning l) = Raise e ->
      addSources (xs ++ ys) dupWarning l = addSources xs dupWarning l).
Proof.
  unfold __init__, addSources. rewrite !for_each_app.
  destruct (for_each (add_argument dupWarning) xs l) as [l1 [[]|e1]];
    destruct (for_each (add_argument dupWarning) xs []) as [l2 [[]|e2]];
    simpl; repeat split; intros; try discriminate; reflexivity.
Qed.

Lemma addSources_in_two_calls_witness :
  __init__ ([Source 1; Collection [Source 2; Source 1]] ++ [Source 3; Source 2])
    (PyBool true)
  = addSources [Source 3; Source 2] (PyBool true)
      (fst (__init__ [Source 1; Collection [Source 2; Source 1]] (PyBool true))).
Proof.
  exact (proj1 (proj2 (addSources_in_two_calls (PyBool true)
                         [Source 1; Collection [Source 2; Source 1]]
                         [Source 3; Source 2] [])) eq_refl).
Defined.

End RegistryMore.


(** * More about superposition: extending a collection, short batches *)

Module FieldMore.

Import Field PyFacts FieldFacts.

Lemma mapM_app {A B} (f : A -> result B) (xs ys : list A) :
  mapM f (xs ++ ys)
  = rbind (mapM f xs) (fun a => rbind (mapM f ys) (fun b => Ok (a ++ b))).
Proof.
  induction xs as [|x xs IH]; simpl.
  - destruct (mapM f ys); reflexivity.
  - destruct (f x) as [y|e]; simpl; [|reflexivity]. rewrite IH.
    destruct (mapM f xs) as [a|e]; simpl; [|reflexivity].
    destruct (mapM f ys) as [b|e]; reflexivity.
Qed.

(** When some call raises IndexError and no call raises anything else, the
    comprehension raises IndexError. *)
Lemma mapM_IndexError {A B} (f : A -> result B) (xs : list A) (x : A) :
  (forall y e, f y = Raise e -> e = IndexError) ->
  In x xs -> f x = Raise IndexError -> mapM f xs = Raise IndexError.
Proof.
  intros Honly Hin Hx. destruct (mapM f xs) as [ys|e] eqn:E.
  - destruct (mapM_Ok_inv f xs ys E x Hin) as [y [Hy _]]. congruence.
  - destruct (mapM_Raise_inv f xs e E) as [z [_ Hz]].
    rewrite (Honly z e Hz). reflexivity.
Qed.

Section SuperpositionMore.

Variable F : Type.
Variable fadd : F -> F -> F.
Variable of_int : Z -> F.
Variable Source : Type.
Variable Pos : Type.
Variable isPosVector : Pos -> bool.
Variable member_getB : Source -> Pos -> result (vec3 F).
Variable member_getBsweep :
  Source -> list Pos -> bool -> Z -> result (list (vec3 F)).

Local Abbreviation getB := (Field.getB fadd of_int member_getB).
Local Abbreviation getBsweep :=
  (Field.getBsweep fadd of_int isPosVector member_getBsweep).
Local Abbreviation py_sum := (Field.py_sum fadd of_int).
Local Abbreviation value_add := (Field.value_add fadd of_int).
Local Abbreviation sum_over_sources := (Field.sum_over_sources fadd of_int).
Local Abbreviation zeros := (Field.zeros F).
Local Abbreviation acc_plus := (Field.acc_plus fadd of_int).

(** X5: the field of an extended collection is the field of the collection
    it extends with the new members' contributions added to it, one after
    the other in member order; for one new member, [getB] of the old
    collection plus that member's contribution. If the old collection's
    [getB] raises, so does the extended one's, with the same exception. *)
Theorem getB_of_an_extended_collection (members new : list Source) (pos : Pos) :
  (forall v (contribution : Source -> vec3 F),
      getB members pos = Ok v ->
      (forall m, In m new -> member_getB m pos = Ok (contribution m)) ->
      getB (members ++ new) pos
      = Ok (fold_left value_add (map Arr (map contribution new)) v))
  /\ (forall v s b,
        getB members pos = Ok v -> member_getB s pos = Ok b ->
        getB (members ++ [s]) pos = Ok (value_add v (Arr b)))
  /\ (forall e, getB members pos = Raise e ->
        getB (members ++ new) pos = Raise e).
Proof.
  assert (Hext : forall news v (contribution : Source -> vec3 F),
            getB members pos = Ok v ->
            (forall m, In m news -> member_getB m pos = Ok (contribution m)) ->
            getB (members ++ news) pos
            = Ok (fold_left value_add (map Arr (map contribution news)) v)).
  { intros news v contribution Hv Hnew. unfold Field.getB in *.
    rewrite mapM_app.
    destruct (mapM (fun s => member_getB s pos) members) as [bs|e];
      [|discriminate].
    simpl in Hv. injection Hv as <-.
    rewrite (mapM_all_Ok _ contribution news Hnew). simpl.
    unfold Field.py_sum. rewrite map_app, fold_left_app. reflexivity. }
  split; [apply Hext|]. split.
  - intros v s b Hv Hs.
    rewrite (Hext [s] v (fun _ => b) Hv); [reflexivity|].
    intros m [<-|[]]. exact Hs.
  - intros e He. unfold Field.getB in *. rewrite mapM_app.
    destruct (mapM (fun s => member_getB s pos) members) as [bs|e'];
      [discriminate|].
    simpl in *. exact He.
Qed.

Lemma sum_over_sources_only_IndexError (calcFields : list (list (vec3 F)))
  (p : nat) (srcs : list nat) (acc : vec3 (num F)) (e : exn) :
  sum_over_sources calcFields p srcs acc = Raise e -> e = IndexError.
Proof.
  revert acc; induction srcs as [|src rest IH]; intros acc; simpl; [discriminate|].
  destruct (nth_error calcFields src) as [rows|]; [|intros [= <-]; reflexivity].
  destruct (nth_error rows p) as [b|]; [apply IH | intros [= <-]; reflexivity].
Qed.

Lemma sum_over_sources_short (calcFields : list (list (vec3 F))) (p : nat)
  (rows : list (vec3 F)) :
  In rows calcFields -> nth_error rows p = None ->
  forall (done : list (list (vec3 F))) (acc : vec3 (num F)),
    sum_over_sources (done ++ calcFields) p
      (seq (length done) (length calcFields)) acc
    = Raise IndexError.
Proof.
  intros Hin Hshort.
  induction calcFields as [|rows0 calc IH]; intros done acc; [destruct Hin|].
  cbn [length seq Field.sum_over_sources].
  rewrite nth_error_app2 by lia. rewrite Nat.sub_diag. cbn [nth_error].
  destruct (nth_error rows0 p) as [b|] eqn:Eb; [|reflexivity].
  destruct Hin as [->|Hin]; [congruence|].
  specialize (IH Hin (done ++ [rows0])
                (mkVec3 (Field.num_add fadd of_int (vx acc) (NFloat (vx b)))
                   (Field.num_add fadd of_int (vy acc) (NFloat (vy b)))
                   (Field.num_add fadd of_int (vz acc) (NFloat (vz b))))).
  rewrite <- app_assoc, length_app in IH. simpl in IH.
  replace (length done + 1)%nat with (S (length done)) in IH by lia.
  exact IH.
Qed.

(** X6: for valid points and members that all return their batch,
    [getBsweep] returns exactly when every batch holds at least one row per
    point: then row number [p] is the sum of the members' rows number [p]
    (rows beyond the points are not read); when some member's batch is
    shorter than the point list, the call raises IndexError. *)
Theorem getBsweep_needs_a_row_per_point (sources : list Source)
  (pos : list Pos) (multiprocessing : bool) (processes : Z)
  (batch : Source -> list (vec3 F)) :
  forallb isPosVector pos = true ->
  (forall m, In m sources ->
     member_getBsweep m pos multiprocessing processes = Ok (batch m)) ->
  ((forall m, In m sources -> (length pos <= length (batch m))%nat) ->
   getBsweep sources pos multiprocessing processes
   = Ok (map (fun p => fold_left acc_plus (column (map batch sources) p) zeros)
           (seq 0 (length pos))))
  /\ ((exists m, In m sources /\ (length (batch m) < length pos)%nat) ->
      getBsweep sources pos multiprocessing processes = Raise IndexError).
Proof.
  intros Hp Hm.
  assert (Hcalc : mapM (fun s => member_getBsweep s pos multiprocessing processes)
                    sources = Ok (map batch sources))
    by (apply mapM_all_Ok; exact Hm).
  unfold Field.getBsweep. rewrite Hp, Hcalc. cbn [rbind]. split.
  - intros Hlen. apply mapM_all_Ok. intros p Hin. apply in_seq in Hin.
    pose proof (sum_over_sources_range F fadd of_int (map batch sources) p) as H.
    rewrite length_map in H. apply (H ltac:(
      intros rows Hr; apply in_map_iff in Hr; destruct Hr as [m [<- Hmem]];
      specialize (Hlen m Hmem); lia) [] zeros).
  - intros [m [Hmem Hshort]].
    apply (mapM_IndexError _ _ (length (batch m))).
    + intros p e. apply sum_over_sources_only_IndexError.
    + apply in_seq. lia.
    + pose proof (sum_over_sources_short (map batch sources) (length (batch m))
                    (batch m)) as H.
      rewrite length_map in H. apply (H ltac:(apply in_map; exact Hmem)
        ltac:(apply nth_error_None; lia) [] zeros).
Qed.

End SuperpositionMore.

Lemma getB_of_an_extended_collection_witness :
  Field.getB Z.add (fun n => n) toy_getB ([1; 2] ++ [3])%nat 5%Z
  = Ok (Field.value_add Z.add (fun n => n) (Arr (mkVec3 3 10 13)%Z)
          (Arr (toy_field 3 5))).
Proof.
  exact (proj1 (proj2 (getB_of_an_extended_collection Z Z.add (fun n => n) nat Z
                         toy_getB [1; 2]%nat [3%nat] 5%Z))
           (Arr (mkVec3 3 10 13)%Z) 3%nat (toy_field 3 5) eq_refl eq_refl).
Defined.

Lemma getBsweep_needs_a_row_per_point_witness :
  forallb (fun _ : Z => true) [4; 5]%Z = true
  /\ (forall m, In m [1; 2]%nat ->
        (fun (s : nat) (pos : list Z) (_ : bool) (_ : Z) =>
           Ok (firstn s (map (toy_field s) pos))) m [4; 5]%Z false 0%Z
        = Ok (firstn m (map (toy_field m) [4; 5]%Z)))
  /\ Field.getBsweep Z.add (fun n => n) (fun _ : Z => true)
       (fun (s : nat) (pos : list Z) (_ : bool) (_ : Z) =>
          Ok (firstn s (map (toy_field s) pos)))
       [1; 2]%nat [4; 5]%Z false 0%Z
     = Raise IndexError.
Proof.
  assert (H1 : forallb (fun _ : Z => true) [4; 5]%Z = true) by reflexivity.
  assert (H2 : forall m, In m [1; 2]%nat ->
            (fun (s : nat) (pos : list Z) (_ : bool) (_ : Z) =>
               Ok (firstn s (map (toy_field s) pos))) m [4; 5]%Z false 0%Z
            = Ok (firstn m (map (toy_field m) [4; 5]%Z)))
    by (intros m _; reflexivity).
  split; [exact H1|]. split; [exact H2|].
  apply (proj2 (getBsweep_needs_a_row_per_point Z Z.add (fun n => n) nat Z
                  (fun _ => true) _ [1; 2]%nat [4; 5]%Z false 0%Z
                  (fun m => firstn m (map (toy_field m) [4; 5]%Z)) H1 H2)).
  exists 1%nat. split; [left; reflexivity | simpl; lia].
Defined.

End FieldMore.


(** * More about the broadcast: failures, members that occur twice *)

Module TransformMore.

Import Registry Field Transform PyFacts RegistryFacts TransformFacts.
Local Open Scope R_scope.

Lemma move_and_rotate_are_broadcasts :
  (forall displacement, move displacement = broadcast (Source_move displacement))
  /\ (forall composeOrientation angleDegrees ax anchor,
        rotate composeOrientation angleDegrees ax anchor
        = broadcast (Source_rotate composeOrientation angleDegrees ax anchor)).
Proof. split; reflexivity. Qed.

(** The call on a Collection member is the loop over its members. *)
Lemma call_on_Collection (method : SourceState -> result SourceState)
  (members : list pyobj) (w : World SourceState) :
  call_on method (Collection members) w = for_each (call_on method) members w.
Proof.
  revert w; induction members as [|m rest IH]; intros w; [reflexivity|].
  cbn [for_each]. cbn [call_on]. unfold bind.
  destruct (call_on method m w) as [w1 [[]|e]]; [apply IH | reflexivity].
Qed.

(** A call never rebinds [self.sources], and it leaves alone every source it
    does not get to. *)
Lemma call_on_keeps (method : SourceState -> result SourceState) :
  forall (o : pyobj) (w : World SourceState),
    self_sources _ (fst (call_on method o w)) = self_sources _ w
    /\ forall id, reaches id o = false ->
         store _ (fst (call_on method o w)) id = store _ w id.
Proof.
  fix IH 1. intros o w. destruct o as [i|members| | | |];
    try (split; reflexivity).
  - cbn [call_on]. destruct (method (store _ w i)) as [s'|e]; simpl;
      [|split; reflexivity].
    split; [reflexivity|]. intros id Hid. unfold set_source. rewrite Hid.
    reflexivity.
  - revert w. induction members as [|m rest IHl]; intros w; [split; reflexivity|].
    cbn [call_on reaches]. unfold bind.
    destruct (IH m w) as [H1 H2].
    destruct (call_on method m w) as [w1 [[]|e]]; cbn [fst] in *.
    + destruct (IHl w1) as [H3 H4].
      split; [etransitivity; [exact H3 | exact H1]|].
      intros id Hid. apply orb_false_iff in Hid. destruct Hid as [Ha Hb].
      etransitivity; [exact (H4 id Hb) | apply H2; exact Ha].
    + split; [exact H1|]. intros id Hid. apply orb_false_iff in Hid.
      apply H2. apply Hid.
Qed.

Lemma calls_keep_the_rest (method : SourceState -> result SourceState)
  (members : list pyobj) (w : World SourceState) :
  self_sources _ (fst (for_each (call_on method) members w)) = self_sources _ w
  /\ forall id, reaches id (Collection members) = false ->
       store _ (fst (for_each (call_on method) members w)) id = store _ w id.
Proof.
  rewrite <- call_on_Collection. apply call_on_keeps.
Qed.



(** A Collection among the members is moved by moving its members, and the
    loop goes on to the members after it. *)
Example move_recurses_into_a_Collection :
  let w := mkWorld SourceState (fun _ => mkSource (mkVec3 0 0 0) 0 (mkVec3 0 0 1))
             [Source 0; Collection [Source 2]; Source 1] in
  snd (move (mkVec3 1 1 1) w) = Ok tt
  /\ (forall id, (id <= 2)%nat ->
        position (store _ (fst (move (mkVec3 1 1 1) w)) id)
        = vadd (mkVec3 0 0 0) (mkVec3 1 1 1))
  /\ position (store _ (fst (move (mkVec3 1 1 1) w)) 3%nat) = mkVec3 0 0 0.
Proof.
  intros w. split; [reflexivity|]. split; [|reflexivity].
  intros [|[|[|id]]] Hid; try reflexivity. lia.
Qed.

Lemma iter_Source_move (displacement : vec) (n : nat) (s : SourceState) :
  Nat.iter n
    (fun s => mkSource (vadd (position s) displacement) (angle s) (axis s)) s
  = mkSource (Nat.iter n (fun p => vadd p displacement) (position s))
      (angle s) (axis s).
Proof.
  induction n as [|n IH]; [destruct s; reflexivity|].
  cbn [Nat.iter nat_rect].
  change (nat_rect _ ?x (fun _ => ?g) n) with (Nat.iter n g x).
  rewrite IH. reflexivity.
Qed.

(** X8: [move] on a collection of sources never raises and keeps the member
    list; it adds the displacement to a source's position once for each
    time the source occurs in the member list (so not at all for a source
    that is no member, and exactly once for each member of a list without
    repetition), and leaves every angle and axis as it was. *)
Theorem move_shifts_a_source_once_per_occurrence (w : World SourceState)
  (displacement : vec) :
  forallb isSource (self_sources _ w) = true ->
  let w' := fst (move displacement w) in
  snd (move displacement w) = Ok tt
  /\ self_sources _ w' = self_sources _ w
  /\ (forall id,
        position (store _ w' id)
        = Nat.iter (occurrences (Source id) (self_sources _ w))
            (fun p => vadd p displacement) (position (store _ w id))
        /\ angle (store _ w' id) = angle (store _ w id)
        /\ axis (store _ w' id) = axis (store _ w id))
  /\ (NoDup (self_sources _ w) ->
      forall id, In (Source id) (self_sources _ w) ->
        position (store _ w' id) = vadd (position (store _ w id)) displacement)
  /\ (forall id, ~ In (Source id) (self_sources _ w) ->
        store _ w' id = store _ w id).
Proof.
  intros Hm w'.
  destruct (broadcast_returns (Source_move displacement)
              (fun s => mkSource (vadd (position s) displacement) (angle s) (axis s))
              (fun s => eq_refl) (self_sources _ w) w Hm) as [H1 [H2 H3]].
  fold (move displacement w) in H1, H2, H3. fold w' in H2, H3.
  split; [exact H1|]. split; [exact H2|].
  assert (Hpos : forall id,
            position (store _ w' id)
            = Nat.iter (occurrences (Source id) (self_sources _ w))
                (fun p => vadd p displacement) (position (store _ w id))
            /\ angle (store _ w' id) = angle (store _ w id)
            /\ axis (store _ w' id) = axis (store _ w id)).
  { intros id. rewrite H3, iter_Source_move. repeat split. }
  split; [exact Hpos|]. split.
  - intros Hn id Hin. rewrite (proj1 (Hpos id)).
    rewrite (occurrences_once (Source id) _ eq_refl Hn Hin). reflexivity.
  - intros id Hn. rewrite H3, (occurrences_absent _ _ Hn). reflexivity.
Qed.

(** The docstring of [move]: two sources at the origin, after
    [col.move([1, 1, 1])], are at the origin plus (1, 1, 1). *)
Lemma move_shifts_a_source_once_per_occurrence_witness :
  let w := mkWorld SourceState (fun _ => mkSource (mkVec3 0 0 0) 0 (mkVec3 0 0 1))
             [Source 0; Source 1] in
  forallb isSource (self_sources _ w) = true
  /\ position (store _ (fst (move (mkVec3 1 1 1) w)) 0%nat)
     = vadd (mkVec3 0 0 0) (mkVec3 1 1 1)
  /\ position (store _ (fst (move (mkVec3 1 1 1) w)) 1%nat)
     = vadd (mkVec3 0 0 0) (mkVec3 1 1 1).
Proof.
  intros w.
  assert (H0 : forallb isSource (self_sources _ w) = true) by reflexivity.
  assert (Hn : NoDup (self_sources _ w)).
  { repeat constructor; simpl; intros H; intuition discriminate. }
  pose proof (move_shifts_a_source_once_per_occurrence w (mkVec3 1 1 1) H0)
    as [_ [_ [_ [Hall _]]]].
  split; [exact H0|]. split.
  - apply (Hall Hn 0%nat). left. reflexivity.
  - apply (Hall Hn 1%nat). right. left. reflexivity.
Defined.

End TransformMore.


(** * The colours and lists of [displaySystem] *)

Module DisplayFacts.

Import Registry Display PyFacts.

Section ColourFacts.

Variable Color : Type.
Variable palette : nat -> nat -> Color.
Variable class_of : pyobj -> source_class.

Local Abbreviation is_magnet := (Display.is_magnet class_of).
Local Abbreviation is_current := (Display.is_current class_of).
Local Abbreviation is_dipole := (Display.is_dipole class_of).
Local Abbreviation count_magnets := (Display.count_magnets class_of).
Local Abbreviation colors := (Display.colors Color palette).
Local Abbreviation display_source := (Display.display_source Color class_of).
Local Abbreviation display_members :=
  (Display.display_members Color palette class_of).
Local Abbreviation painted := (Display.painted Color palette).
Local Abbreviation recoloured := (Display.recoloured Color palette).
Local Abbreviation set_color := (Display.set_color Color).

Lemma count_magnets_filter (sources : list pyobj) (Nm : nat) :
  count_magnets sources Nm = (Nm + length (filter is_magnet sources))%nat.
Proof.
  revert Nm; induction sources as [|s rest IH]; intros Nm; simpl; [lia|].
  rewrite IH. destruct (is_magnet s); simpl; lia.
Qed.

Lemma colors_getitem (Nm k : nat) :
  (k <= Nm)%nat ->
  py_getitem (colors Nm) (Z.of_nat k) = Ok (palette (Nm + 1) k).
Proof.
  intros Hk. unfold py_getitem, Display.colors.
  rewrite length_map, length_seq.
  assert (H1 : (Z.of_nat k <? 0)%Z = false) by (apply Z.ltb_ge; lia).
  assert (H2 : (Z.of_nat (Nm + 1) <=? Z.of_nat k)%Z = false)
    by (apply Z.leb_gt; lia).
  assert (H3 : (k <? Nm + 1)%nat = true) by (apply Nat.ltb_lt; lia).
  cbv zeta. rewrite H1. cbv iota. rewrite H1, H2. cbn [orb]. cbv iota.
  rewrite Nat2Z.id, nth_error_map, nth_error_seq, H3. reflexivity.
Qed.

Lemma nth_error_combine {A B} (xs : list A) (ys : list B) (k : nat) (x : A)
  (y : B) :
  nth_error xs k = Some x -> nth_error ys k = Some y ->
  nth_error (combine xs ys) k = Some (x, y).
Proof.
  revert xs ys; induction k as [|k IH]; intros [|a xs] [|b ys]; simpl;
    try discriminate.
  - intros [= ->] [= ->]. reflexivity.
  - apply IH.
Qed.

Lemma display_loop (direc : pyobj) (Nm : nat) (rest : list pyobj) :
  forall (k : nat) (b : bookkeeping Color),
    ii _ b = (Z.of_nat k - 1)%Z ->
    (k + length (filter is_magnet rest) <= Nm)%nat ->
    for_each (display_source direc (colors Nm)) rest b
    = (mkBook _ (Z.of_nat (k + length (filter is_magnet rest)) - 1)%Z
         (plotted _ b ++ painted Nm k (filter is_magnet rest))
         (if is_True direc then magnetsList _ b ++ filter is_magnet rest
          else magnetsList _ b)
         (if is_True direc
          then recoloured Nm (color _ b) k (filter is_magnet rest)
          else color _ b)
         (if is_True direc
          then currentsList _ b
               ++ map CopyWithVertices (filter is_current rest)
          else currentsList _ b)
         (dipolesList _ b ++ filter is_dipole rest),
       Ok tt).
Proof.
  induction rest as [|s rest IH]; intros k b Hii Hk.
  - simpl. unfold ret, Display.painted. simpl.
    rewrite !app_nil_r, Nat.add_0_r, <- Hii.
    destruct b; simpl. destruct (is_True direc); reflexivity.
  - cbn [for_each]. unfold bind.
    unfold Display.display_source at 1.
    unfold Display.is_magnet, Display.is_current, Display.is_dipole in *.
    cbn [filter] in *.
    destruct (class_of s) eqn:Ec; cbn [length] in Hk |- *.
    1-3: replace (ii _ b + 1)%Z with (Z.of_nat k) by lia;
         rewrite (colors_getitem Nm k) by lia;
         rewrite (IH (S k)) by (cbn [ii]; lia);
         cbn [ii plotted magnetsList color currentsList dipolesList];
         unfold Display.painted; cbn [length seq map combine Display.recoloured];
         rewrite <- !app_assoc; cbn [app];
         replace (S k + length (filter
                    (fun s0 => match class_of s0 with
                               | Box | Cylinder | Sphere => true
                               | _ => false end) rest))%nat
           with (k + S (length (filter
                    (fun s0 => match class_of s0 with
                               | Box | Cylinder | Sphere => true
                               | _ => false end) rest)))%nat by lia;
         destruct (is_True direc); rewrite <- ?app_assoc; reflexivity.
    1-2: rewrite (IH k) by (cbn [ii]; assumption);
         cbn [ii plotted magnetsList color currentsList dipolesList map];
         destruct (is_True direc); rewrite <- ?app_assoc; reflexivity.
    + rewrite (IH k) by (cbn [ii]; assumption).
      cbn [ii plotted magnetsList color currentsList dipolesList].
      rewrite <- app_assoc. reflexivity.
    + apply IH; assumption.
Qed.

Lemma recoloured_elsewhere (Nm : nat) (ms : list pyobj) (o : pyobj) :
  ~ In o ms ->
  forall (f : pyobj -> option Color) (k : nat), recoloured Nm f k ms o = f o.
Proof.
  induction ms as [|m rest IH]; intros Hn f k; [reflexivity|].
  cbn [Display.recoloured].
  rewrite IH by (intros H; apply Hn; right; exact H).
  unfold set_color. destruct (same_source o m) eqn:E; [|reflexivity].
  apply RegistryFacts.same_source_eq in E. subst. contradiction Hn.
  left. reflexivity.
Qed.

(** An object that occurs more than once keeps the colour set last. *)
Lemma recoloured_last (Nm : nat) (pre : list pyobj) (s : pyobj)
  (post : list pyobj) :
  isSource s = true -> ~ In s post ->
  forall (f : pyobj -> option Color) (k : nat),
    recoloured Nm f k (pre ++ s :: post) s
    = Some (palette (Nm + 1) (k + length pre)).
Proof.
  intros Hs Hn. induction pre as [|m pre IH]; intros f k.
  - cbn [app Display.recoloured length]. rewrite Nat.add_0_r.
    rewrite (recoloured_elsewhere Nm post s Hn). unfold set_color.
    rewrite RegistryFacts.same_source_refl by exact Hs. reflexivity.
  - cbn [app Display.recoloured length]. rewrite IH.
    replace (S k + length pre)%nat with (k + S (length pre))%nat by lia.
    reflexivity.
Qed.

(** X9: the colour bookkeeping of [displaySystem] never raises: with [Nm]
    magnets (Box, Cylinder, Sphere) among the members, the palette has
    [Nm + 1] colours and magnet number [k] in member order is plotted with
    colour number [k], so the index stays within the palette and its last
    colour is never used; the counter ends at [Nm - 1]. The dipoles are all
    collected, in member order. Only when [direc] is the boolean True are
    the magnets collected and given their colour as [color] attribute (a
    source that occurs more than once keeps the colour of its last
    occurrence, on every entry), and a copy of each current is collected;
    otherwise no [color] attribute changes. The attribute of an object
    that is no magnet of the collection never changes. *)
Theorem displaySystem_gives_each_magnet_its_own_colour
  (color_before : pyobj -> option Color) (self_sources : list pyobj)
  (direc : pyobj) :
  let magnets := filter is_magnet self_sources in
  let Nm := length magnets in
  let after := fst (display_members color_before self_sources direc) in
  display_members color_before self_sources direc
  = (mkBook _ (Z.of_nat Nm - 1)%Z
       (painted Nm 0 magnets)
       (if is_True direc then magnets else [])
       (if is_True direc then recoloured Nm color_before 0 magnets
        else color_before)
       (if is_True direc
        then map CopyWithVertices (filter is_current self_sources) else [])
       (filter is_dipole self_sources),
     Ok tt)
  /\ length (colors Nm) = (Nm + 1)%nat
  /\ (forall s c, In (s, c) (plotted _ after) ->
        exists k, (k < Nm)%nat /\ c = palette (Nm + 1) k
                  /\ nth_error magnets k = Some s)
  /\ (is_True direc = true ->
      forall pre s post, magnets = pre ++ s :: post -> isSource s = true ->
        ~ In s post ->
        color _ after s = Some (palette (Nm + 1) (length pre)))
  /\ (forall o, ~ In o magnets -> color _ after o = color_before o)
  /\ (is_True direc = false -> forall o, color _ after o = color_before o).
Proof.
  intros magnets Nm after.
  assert (Hrun : display_members color_before self_sources direc
    = (mkBook _ (Z.of_nat Nm - 1)%Z
         (painted Nm 0 magnets)
         (if is_True direc then magnets else [])
         (if is_True direc then recoloured Nm color_before 0 magnets
          else color_before)
         (if is_True direc
          then map CopyWithVertices (filter is_current self_sources) else [])
         (filter is_dipole self_sources),
       Ok tt)).
  { unfold Display.display_members.
    rewrite count_magnets_filter. cbn [Nat.add].
    fold magnets. fold Nm.
    rewrite (display_loop direc Nm self_sources 0
               (mkBook _ (-1)%Z [] [] color_before [] []))
      by (cbn [ii]; fold magnets; fold Nm; lia).
    cbn [ii plotted magnetsList color currentsList dipolesList Nat.add app].
    fold magnets. fold Nm. destruct (is_True direc); reflexivity. }
  split; [exact Hrun|]. unfold after. rewrite Hrun.
  cbn [fst plotted color]. split; [|split; [|split; [|split]]].
  - unfold Display.colors. rewrite length_map, length_seq. reflexivity.
  - intros s c Hin. unfold Display.painted in Hin.
    apply In_nth_error in Hin. destruct Hin as [k Hk].
    assert (Hlt : (k < Nm)%nat).
    { assert (Hl : (k < length (combine magnets
                      (map (palette (Nm + 1)) (seq 0 (length magnets)))))%nat)
        by (apply nth_error_Some; congruence).
      rewrite length_combine, length_map, length_seq in Hl. unfold Nm. lia. }
    exists k. split; [exact Hlt|].
    destruct (nth_error magnets k) as [m|] eqn:Em;
      [|apply nth_error_None in Em; unfold Nm in Hlt; lia].
    assert (Hc : nth_error (map (palette (Nm + 1)) (seq 0 (length magnets))) k
                 = Some (palette (Nm + 1) k)).
    { rewrite nth_error_map, nth_error_seq.
      replace (k <? length magnets)%nat with true
        by (symmetry; apply Nat.ltb_lt; exact Hlt).
      reflexivity. }
    assert (Hpair : nth_error (combine magnets
                      (map (palette (Nm + 1)) (seq 0 (length magnets)))) k
                    = Some (m, palette (Nm + 1) k)).
    { apply nth_error_combine; assumption. }
    rewrite Hpair in Hk. injection Hk as -> ->. split; reflexivity.
  - intros Hd pre s post Hm Hs Hn. rewrite Hd, Hm.
    apply (recoloured_last Nm pre s post Hs Hn color_before 0).
  - intros o Ho. destruct (is_True direc); [|reflexivity].
    apply recoloured_elsewhere. exact Ho.
  - intros Hd o. rewrite Hd. reflexivity.
Qed.

End ColourFacts.

(** A box that is a member twice, around a dipole and a line current, with
    [direc=True]: the faces get the colours number 0 and 1 of a palette of
    three, and the box ends with the colour number 1 as its attribute. *)
Example displaySystem_runs :
  let after :=
    fst (Display.display_members nat (fun n k => (100 * n + k)%nat)
           (fun s => match s with
                     | Source 0 => Box
                     | Source 1 => Dipole
                     | Source 2 => Line
                     | _ => OtherClass
                     end)
           (fun _ => None)
           [Source 0; Source 1; Source 2; Source 0] (PyBool true)) in
  ii _ after = 1%Z
  /\ plotted _ after = [(Source 0, 300%nat); (Source 0, 301%nat)]
  /\ magnetsList _ after = [Source 0; Source 0]
  /\ color _ after (Source 0) = Some 301%nat
  /\ currentsList _ after = [CopyWithVertices (Source 2)]
  /\ dipolesList _ after = [Source 1].
Proof. repeat split. Qed.

Section LimitFacts.

Local Open Scope R_scope.

Variable class_of : pyobj -> source_class.
Variable extent : pyobj -> R.

Local Abbreviation member_sizes := (Display.member_sizes class_of extent).
Local Abbreviation system_size := (Display.system_size class_of extent).

Lemma raise_to_max (a x : R) : raise_to a x = Rmax a x.
Proof.
  unfold raise_to, Rmax. destruct (Rgt_dec x a), (Rle_dec a x); lra.
Qed.

Lemma running_maximum (xs : list R) (a : R) :
  a <= fold_left raise_to xs a
  /\ (forall x, In x xs -> x <= fold_left raise_to xs a)
  /\ (fold_left raise_to xs a = a \/ In (fold_left raise_to xs a) xs).
Proof.
  revert a; induction xs as [|y ys IH]; intros a; simpl.
  - split; [lra|]. split; [intros x []|left; reflexivity].
  - destruct (IH (raise_to a y)) as [H1 [H2 H3]].
    pose proof (Rmax_l a y) as Hl. pose proof (Rmax_r a y) as Hr.
    rewrite raise_to_max in *. split; [lra|]. split.
    + intros x [<-|Hx]; [lra | apply H2; exact Hx].
    + destruct H3 as [H3|H3]; [|right; right; exact H3].
      rewrite H3. unfold Rmax. destruct (Rle_dec a y); [right; left|left];
        reflexivity.
Qed.


End LimitFacts.

End DisplayFacts.
